(** * Paragraph block tool: alignment resolution, normalisation and validation

    A shallow embedding of the [Paragraph] class of [src/index.js] (an
    Editor.js block tool with alignment options), and the properties of
    its alignment-selection logic.

    JavaScript is untyped, so configuration and block data are modelled as
    JavaScript values ([JsVal]); a computation that may raise is an
    [Outcome]; a getter or method that may also write to the console is a
    computation in the monad [M], which threads the console contents. *)

From Stdlib Require Import List String Ascii Bool ZArith DecimalString.
Import ListNotations.
Local Open Scope string_scope.
Local Open Scope list_scope.

(* ================================================================= *)
(** ** JavaScript values *)

(** Plain data values: the values a JSON document can hold, plus
    [undefined].  A number is represented by an integer (every other
    number but NaN behaves as a non-zero integer does for all that the
    class observes); a string is a sequence of code units below 256.
    Functions, symbols and big integers are outside the model. *)
#[local] Set Warnings "-register-all".
Inductive JsVal : Type :=
| JUndefined
| JNull
| JBool (b : bool)
| JNum (n : Z)
| JStr (s : string)
| JArr (elems : list JsVal)
| JObj (fields : list (string * JsVal)).

(** The exceptions the class can meet: the [TypeError] of the language,
    and the two [DOMException]s of [DOMTokenList.add]. *)
Inductive JsError : Type :=
| TypeError
| SyntaxError
| InvalidCharacterError.

Inductive Outcome (A : Type) : Type :=
| Ret (a : A)
| Throw (e : JsError).
Arguments Ret {A} a.
Arguments Throw {A} e.

(** The [typeof] operator. *)
Definition typeof (v : JsVal) : string :=
  match v with
  | JUndefined => "undefined"
  | JNull => "object"
  | JBool _ => "boolean"
  | JNum _ => "number"
  | JStr _ => "string"
  | JArr _ => "object"
  | JObj _ => "object"
  end.

(** ToBoolean: the truthiness used by [if], [?:], [!], [||] and [Boolean]. *)
Definition truthy (v : JsVal) : bool :=
  match v with
  | JUndefined => false
  | JNull => false
  | JBool b => b
  | JNum n => negb (n =? 0)%Z
  | JStr s => negb (s =? "")
  | JArr _ => true
  | JObj _ => true
  end.

(** Own property of an object literal; a key written twice keeps its last
    value. *)
Fixpoint own_prop (k : string) (fs : list (string * JsVal)) : option JsVal :=
  match fs with
  | [] => None
  | (k', v) :: rest =>
      match own_prop k rest with
      | Some w => Some w
      | None => if k =? k' then Some v else None
      end
  end.

(** Reading a data property [v.k], for the keys the class reads ([text],
    [align], [alignTypes], [defaultAlignType], [preserveBlank]), none of
    which is defined on a built-in prototype: reading from [undefined] or
    [null] raises, a primitive or an array has no such property. *)
Definition get_prop (v : JsVal) (k : string) : Outcome JsVal :=
  match v with
  | JUndefined | JNull => Throw TypeError
  | JObj fs =>
      match own_prop k fs with
      | Some w => Ret w
      | None => Ret JUndefined
      end
  | _ => Ret JUndefined
  end.

(** [s === v] where the left operand is a string. *)
Definition strict_eq_str (s : string) (v : JsVal) : bool :=
  match v with
  | JStr t => s =? t
  | _ => false
  end.

(** [String.prototype.includes]: [needle] occurs in [hay]. *)
Fixpoint str_includes (needle hay : string) : bool :=
  prefix needle hay
  || match hay with
     | EmptyString => false
     | String _ hay' => str_includes needle hay'
     end.

(** The method call [recv.includes(s)] with a string argument:
    [Array.prototype.includes] compares with SameValueZero, which on a
    string is [===]; [String.prototype.includes] searches a substring; any
    other receiver has no callable [includes]. *)
Definition includes (recv : JsVal) (s : string) : Outcome bool :=
  match recv with
  | JArr elems => Ret (existsb (strict_eq_str s) elems)
  | JStr t => Ret (str_includes s t)
  | _ => Throw TypeError
  end.

(** White space and line terminators among the code units below 256:
    TAB, LF, VT, FF, CR, SP and NBSP. *)
Definition is_ws (c : ascii) : bool :=
  let n := nat_of_ascii c in
  ((9 <=? n)%nat && (n <=? 13)%nat) || (n =? 32)%nat || (n =? 160)%nat.

Fixpoint trimStart (s : string) : string :=
  match s with
  | EmptyString => EmptyString
  | String c rest => if is_ws c then trimStart rest else s
  end.

Fixpoint trimEnd (s : string) : string :=
  match s with
  | EmptyString => EmptyString
  | String c rest =>
      let rest' := trimEnd rest in
      if is_ws c && (rest' =? "") then EmptyString else String c rest'
  end.

(** [String.prototype.trim]. *)
Definition trim (s : string) : string := trimEnd (trimStart s).

(** Every character of [s] is white space. *)
Definition all_ws (s : string) : bool :=
  forallb is_ws (list_ascii_of_string s).

(** The method call [v.trim()]: only a string has it. *)
Definition call_trim (v : JsVal) : Outcome string :=
  match v with
  | JStr s => Ret (trim s)
  | _ => Throw TypeError
  end.

(** [Array.prototype.find] over an array of strings, with a callback
    that may raise; the callback runs on no element of an empty array. *)
Fixpoint js_find (f : string -> Outcome bool) (l : list string)
  : Outcome (option string) :=
  match l with
  | [] => Ret None
  | a :: rest =>
      match f a with
      | Throw e => Throw e
      | Ret true => Ret (Some a)
      | Ret false => js_find f rest
      end
  end.

(** The result of [find] is a string or [undefined], whose truthiness is: *)
Definition found_truthy (r : option string) : bool :=
  match r with
  | Some s => truthy (JStr s)
  | None => false
  end.

(** [Array.prototype.filter] over an array of strings, with a callback
    that may raise. *)
Fixpoint js_filter (f : string -> Outcome bool) (l : list string)
  : Outcome (list string) :=
  match l with
  | [] => Ret []
  | a :: rest =>
      match f a with
      | Throw e => Throw e
      | Ret b =>
          match js_filter f rest with
          | Throw e => Throw e
          | Ret rest' => Ret (if b then a :: rest' else rest')
          end
      end
  end.

(** ToString, as the operator [+] applies it to the operand beside a
    string, and as a DOM attribute or method applies it to a value it takes
    as a string.  The formatting of a number is a parameter.  An array is
    joined with commas, [undefined] and [null] elements giving the empty
    string.  An object is converted by the inherited [toString], unless an
    own property hides it: no own property is callable in this model, and
    the conversion then raises. *)
Fixpoint to_string (numberToString : Z -> string) (v : JsVal) : Outcome string :=
  match v with
  | JUndefined => Ret "undefined"
  | JNull => Ret "null"
  | JBool b => Ret (if b then "true" else "false")
  | JNum n => Ret (numberToString n)
  | JStr s => Ret s
  | JArr elems =>
      (fix join (l : list JsVal) : Outcome string :=
         match l with
         | [] => Ret ""
         | x :: rest =>
             match
               match x with
               | JUndefined | JNull => Ret ""
               | _ => to_string numberToString x
               end
             with
             | Throw e => Throw e
             | Ret sx =>
                 match rest with
                 | [] => Ret sx
                 | _ :: _ =>
                     match join rest with
                     | Throw e => Throw e
                     | Ret sr => Ret (sx ++ "," ++ sr)%string
                     end
                 end
             end
         end) elems
  | JObj fs =>
      match own_prop "toString" fs with
      | Some _ => Throw TypeError
      | None => Ret "[object Object]"
      end
  end.

(** *** What the class uses of the DOM *)

(** ASCII white space, which a class token must not hold: TAB, LF, FF, CR
    and SP. *)
Definition is_ascii_ws (c : ascii) : bool :=
  let n := nat_of_ascii c in
  (n =? 9)%nat || (n =? 10)%nat || (n =? 12)%nat || (n =? 13)%nat
  || (n =? 32)%nat.

Fixpoint has_ascii_ws (s : string) : bool :=
  match s with
  | EmptyString => false
  | String c rest => is_ascii_ws c || has_ascii_ws rest
  end.

(** The arguments of a method that takes strings, converted from left to
    right. *)
Fixpoint to_strings (numberToString : Z -> string) (vs : list JsVal)
  : Outcome (list string) :=
  match vs with
  | [] => Ret []
  | v :: rest =>
      match to_string numberToString v with
      | Throw e => Throw e
      | Ret sv =>
          match to_strings numberToString rest with
          | Throw e => Throw e
          | Ret srest => Ret (sv :: srest)
          end
      end
  end.

(** The first step of [DOMTokenList.add]: a token that is empty raises a
    [SyntaxError], one that holds ASCII white space an
    [InvalidCharacterError]. *)
Fixpoint validate_tokens (tokens : list string) : Outcome unit :=
  match tokens with
  | [] => Ret tt
  | tok :: rest =>
      if tok =? "" then Throw SyntaxError
      else if has_ascii_ws tok then Throw InvalidCharacterError
      else validate_tokens rest
  end.

(** Its second step: each token is appended to the ordered set, unless the
    set holds it. *)
Definition tokenSet_append (cl : list string) (token : string) : list string :=
  if existsb (fun tok => tok =? token) cl then cl else cl ++ [token].

(** [DOMTokenList.add(...args)] on the token set [cl]. *)
Definition domTokenList_add (numberToString : Z -> string) (cl : list string)
           (args : list JsVal) : Outcome (list string) :=
  match to_strings numberToString args with
  | Throw e => Throw e
  | Ret tokens =>
      match validate_tokens tokens with
      | Throw e => Throw e
      | Ret _ => Ret (fold_left tokenSet_append tokens cl)
      end
  end.

(** What the class takes from its surroundings: the formatting of numbers
    by the language, and the two reads it makes of the API object the host
    hands to the constructor, [this._api.styles.block] and the call
    [this._api.i18n.t(key)], either of which may raise. *)
Record Host : Type := mkHost {
  numberToString : Z -> string;
  api_styles_block : Outcome JsVal;
  api_i18n_t : JsVal -> Outcome JsVal
}.

(* ================================================================= *)
(** ** Computations with a console *)

(** What [console.warn] is called with. *)
Inductive Diagnostic : Type :=
| InvalidDefaultAlignType.
    (* the default align type specified is invalid *)

Definition Console : Type := list Diagnostic.

Definition M (A : Type) : Type := Console -> Outcome A * Console.

Definition ret {A} (a : A) : M A := fun c => (Ret a, c).

Definition bind {A B} (m : M A) (k : A -> M B) : M B :=
  fun c =>
    match m c with
    | (Ret a, c') => k a c'
    | (Throw e, c') => (Throw e, c')
    end.

Definition lift {A} (o : Outcome A) : M A := fun c => (o, c).

Definition console_warn (d : Diagnostic) : M unit :=
  fun c => (Ret tt, c ++ [d]).

Notation "x <- m ;; k" := (bind m (fun x => k))
  (at level 61, m at next level, right associativity).
Notation "m ;;; k" := (bind m (fun _ => k))
  (at level 61, right associativity).

(** [Array.prototype.map] with a callback that computes in [M]. *)
Fixpoint js_map {A} (f : string -> M A) (l : list string) : M (list A) :=
  match l with
  | [] => ret []
  | a :: rest =>
      b <- f a ;;
      rest' <- js_map f rest ;;
      ret (b :: rest')
  end.

(* ================================================================= *)
(** ** The class *)

Module Paragraph.

(** [static get ALIGN_TYPES]. *)
Definition ALIGN_TYPES : list string := ["left"; "center"; "right"; "justify"].

(** [static get DEFAULT_ALIGN_TYPE]. *)
Definition DEFAULT_ALIGN_TYPE : string := "left".

(** The fields of an instance that the alignment logic reads. *)
Record t : Type := mk {
  _config : JsVal;
  _data : JsVal
}.

(** [get availableAlignTypes]. *)
Definition availableAlignTypes (this : t) : Outcome (list string) :=
  match get_prop (_config this) "alignTypes" with
  | Throw e => Throw e
  | Ret alignTypes =>
      if truthy alignTypes
      then js_filter (fun align => includes alignTypes align) ALIGN_TYPES
      else Ret ALIGN_TYPES
  end.

(** The configurations whose [alignTypes] the getter above can handle:
    absent (or otherwise falsy), an array, or a string. *)
Definition alignTypes_ok (this : t) : Prop :=
  exists alignTypes,
    get_prop (_config this) "alignTypes" = Ret alignTypes /\
    (truthy alignTypes = false \/
     (exists elems, alignTypes = JArr elems) \/
     (exists s, alignTypes = JStr s)).

(** [get userDefaultAlignType]. *)
Definition userDefaultAlignType (this : t) : M string :=
  defaultAlignType <- lift (get_prop (_config this) "defaultAlignType") ;;
  if truthy defaultAlignType then
    available <- lift (availableAlignTypes this) ;;
    userSpecified <- lift (js_find
                             (fun align =>
                                match get_prop (_config this) "defaultAlignType" with
                                | Throw e => Throw e
                                | Ret v => Ret (strict_eq_str align v)
                                end)
                             available) ;;
    match userSpecified with
    | Some found =>
        if found_truthy userSpecified then ret found
        else
          console_warn InvalidDefaultAlignType ;;;
          ret DEFAULT_ALIGN_TYPE
    | None =>
        console_warn InvalidDefaultAlignType ;;;
        ret DEFAULT_ALIGN_TYPE
    end
  else ret DEFAULT_ALIGN_TYPE.

(** [get userPreserveBlank]. *)
Definition userPreserveBlank (this : t) : Outcome bool :=
  match get_prop (_config this) "preserveBlank" with
  | Throw e => Throw e
  | Ret v => Ret (truthy v)
  end.

(** [_normalizeData(data)]. *)
Definition _normalizeData (this : t) (data : JsVal) : M JsVal :=
  let data := if negb (typeof data =? "object") then JObj [] else data in
  text <- lift (get_prop data "text") ;;
  let newText := if truthy text then text else JStr "" in
  align <- lift (get_prop data "align") ;;
  newAlign <- (if truthy align then ret align
               else (dflt <- userDefaultAlignType this ;; ret (JStr dflt))) ;;
  ret (JObj [("text", newText); ("align", newAlign)]).

(** [get currentAlignType]. *)
Definition currentAlignType (this : t) : M string :=
  available <- lift (availableAlignTypes this) ;;
  alignType <- lift (js_find
                       (fun align =>
                          match get_prop (_data this) "align" with
                          | Throw e => Throw e
                          | Ret stored => Ret (strict_eq_str align stored)
                          end)
                       available) ;;
  match alignType with
  | Some found =>
      if negb (found_truthy alignType) then userDefaultAlignType this
      else ret found
  | None => userDefaultAlignType this
  end.

(** [this._CSS.wrapperForAlignment(alignType)]. *)
Definition wrapperForAlignment (alignType : string) : string :=
  ("ce-paragraph-align-" ++ alignType)%string.

(** The [DIV] that [_getElement] returns, as what is assigned to it: its
    class tokens, [contentEditable], [dataset.placeholder] and the string
    given to [innerHTML] (which the host then parses). *)
Record Div : Type := mkDiv {
  div_classList : list string;
  div_contentEditable : bool;
  div_placeholder : string;
  div_innerHTML : string
}.

(** [_getElement()]; [readOnly] is [this._readOnly] and [block] is
    [this._CSS.block], both stored by the constructor. *)
Definition _getElement (host : Host) (readOnly block : JsVal) (this : t)
  : M Div :=
  cur <- currentAlignType this ;;
  classes <- lift (domTokenList_add (numberToString host) []
                     [JStr "ce-paragraph"; block;
                      JStr (wrapperForAlignment cur)]) ;;
  key <- lift (get_prop (_config this) "placeholder") ;;
  translated <- lift (api_i18n_t host (if truthy key then key else JStr "")) ;;
  placeholder <- lift (to_string (numberToString host) translated) ;;
  text <- lift (get_prop (_data this) "text") ;;
  html <- lift (to_string (numberToString host)
                          (if truthy text then text else JStr "")) ;;
  ret (mkDiv classes (negb (truthy readOnly)) placeholder html).

(** [constructor({api, readOnly, config, data})]: the configuration
    defaults to an empty object, the data is normalised, the block class
    is read off the API, and the element is built. *)
Definition constructor (host : Host) (readOnly config data : JsVal) : M t :=
  let this0 := mk (if truthy config then config else JObj []) JUndefined in
  d <- _normalizeData this0 data ;;
  let this1 := mk (_config this0) d in
  block <- lift (api_styles_block host) ;;
  _getElement host readOnly block this1 ;;;
  ret this1.

(** [save(blockContent)]; [innerHTML] is the content of the element, a
    string owned by the host. *)
Definition save (this : t) (innerHTML : string) : M JsVal :=
  cur <- currentAlignType this ;;
  ret (JObj [("text", JStr innerHTML); ("align", JStr cur)]).

(** [validate(savedData)]. *)
Definition validate (this : t) (savedData : JsVal) : Outcome bool :=
  match userPreserveBlank this with
  | Throw e => Throw e
  | Ret preserve =>
      if negb preserve then
        match get_prop savedData "text" with
        | Throw e => Throw e
        | Ret text =>
            match call_trim text with
            | Throw e => Throw e
            | Ret trimmed => Ret (negb (trimmed =? ""))
            end
        end
      else Ret true
  end.

(** An entry of the block tunes menu: the alignment its [onActivate]
    passes to [_setAlignType], and its [isActive] flag.  Icon and label
    are presentation. *)
Record MenuEntry : Type := mkEntry {
  entryAlign : string;
  isActive : bool
}.

(** [renderSettings()]. *)
Definition renderSettings (this : t) : M (list MenuEntry) :=
  js_map (fun align =>
            cur <- currentAlignType this ;;
            ret (mkEntry align (align =? cur)))
         ALIGN_TYPES.

End Paragraph.

(* ================================================================= *)
(** ** The rest of the class: activation, paste and merge *)

(** [merge(data)]: the value assigned to [this._element.innerHTML], from
    the content [innerHTML] read off the element.  [+] binds tighter than
    [||]. *)
Definition merge (numberToString : Z -> string) (innerHTML : string)
           (data : JsVal) : Outcome string :=
  match get_prop data "text" with
  | Throw e => Throw e
  | Ret text =>
      match to_string numberToString text with
      | Throw e => Throw e
      | Ret s =>
          let sum := (innerHTML ++ s)%string in
          Ret (if truthy (JStr sum) then sum else "")
      end
  end.

(** [onPaste(event)], up to the request for an animation frame;
    [innerHTML] is [event.detail.data.innerHTML], a string owned by the
    host.  The frame then runs [_getElement]. *)
Definition onPaste (this : Paragraph.t) (innerHTML : string) : M Paragraph.t :=
  cur <- Paragraph.currentAlignType this ;;
  d <- Paragraph._normalizeData this
         (JObj [("text", JStr innerHTML); ("align", JStr cur)]) ;;
  ret (Paragraph.mk (Paragraph._config this) d).

Module Rendered.

(** The element of the block, as its list of class tokens
    ([this._element.classList]). *)
Record Element : Type := mkElement {
  classList : list string
}.

(** An instance after construction; [_data] is the object
    [_normalizeData] returned, as the list of its own properties. *)
Record t : Type := mk {
  _config : JsVal;
  _data : list (string * JsVal);
  _element : Element
}.

(** The instance as the getters read it. *)
Definition instance (r : t) : Paragraph.t :=
  Paragraph.mk (_config r) (JObj (_data r)).

(** [DOMTokenList.remove] and [DOMTokenList.add] with one token that is
    not empty and holds no white space. *)
Definition classList_remove (cl : list string) (token : string) : list string :=
  filter (fun tok => negb (tok =? token)) cl.

Definition classList_add (cl : list string) (token : string) : list string :=
  if existsb (fun tok => tok =? token) cl then cl else cl ++ [token].

(** [_setAlignType(newAlign)]. *)
Definition _setAlignType (r : t) (newAlign : JsVal) : t :=
  let data := _data r ++ [("align", newAlign)] in
  let classes :=
    fold_left
      (fun cl align =>
         let alignClass := Paragraph.wrapperForAlignment align in
         let cl' := classList_remove cl alignClass in
         if strict_eq_str align newAlign then classList_add cl' alignClass
         else cl')
      Paragraph.ALIGN_TYPES (classList (_element r)) in
  mk (_config r) data (mkElement classes).

End Rendered.

(* ================================================================= *)
(** ** Predicates the statements use *)

(** [subseq l1 l2]: [l1] is [l2] with some elements left out, the others
    in the order they have in [l2]. *)
Inductive subseq {A : Type} : list A -> list A -> Prop :=
| subseq_nil : subseq [] []
| subseq_skip a l1 l2 : subseq l1 l2 -> subseq l1 (a :: l2)
| subseq_keep a l1 l2 : subseq l1 l2 -> subseq (a :: l1) (a :: l2).

(** The host serves the element of a block under the configuration
    [config]: the block class read off the API converts to a class token
    that [DOMTokenList.add] takes, and the translation of the configured
    placeholder converts to a string. *)
Definition host_usable (host : Host) (config : JsVal) : Prop :=
  (exists block tok,
      api_styles_block host = Ret block /\
      to_string (numberToString host) block = Ret tok /\
      tok <> "" /\ has_ascii_ws tok = false) /\
  (exists key translated placeholder,
      get_prop config "placeholder" = Ret key /\
      api_i18n_t host (if truthy key then key else JStr "") = Ret translated /\
      to_string (numberToString host) translated = Ret placeholder).

(** The text of the data, when the data is an object and the text is
    truthy, converts to a string. *)
Definition text_convertible (host : Host) (data : JsVal) : Prop :=
  typeof data = "object" ->
  forall rawText,
    get_prop data "text" = Ret rawText ->
    truthy rawText = true ->
    exists s, to_string (numberToString host) rawText = Ret s.

(** The value [v] is a string, and that string is a member of [l]. *)
Definition member_of (v : JsVal) (l : list string) : Prop :=
  exists s, v = JStr s /\ In s l.

(* ================================================================= *)
(** ** Configurations and blocks used as examples *)

(** [{alignTypes: ["left", "right"]}] *)
Definition cfg_left_right : JsVal :=
  JObj [("alignTypes", JArr [JStr "left"; JStr "right"])].

(** [{alignTypes: ["right", "justify"]}] *)
Definition cfg_right_justify : JsVal :=
  JObj [("alignTypes", JArr [JStr "right"; JStr "justify"])].

(** [{alignTypes: ["right", "justify"], defaultAlignType: "center"}] *)
Definition cfg_right_justify_center : JsVal :=
  JObj [("alignTypes", JArr [JStr "right"; JStr "justify"]);
        ("defaultAlignType", JStr "center")].

(** [{alignTypes: ["top"]}] *)
Definition cfg_unknown_only : JsVal :=
  JObj [("alignTypes", JArr [JStr "top"])].

(** A host whose block class is [cdx-block] and whose dictionary is
    empty, so that [t] returns its key; numbers are printed in decimal. *)
Definition editor_host : Host :=
  mkHost (fun n => NilZero.string_of_int (Z.to_int n))
         (Ret (JStr "cdx-block"))
         (fun key => Ret key).

(** The blocks the constructor builds from these configurations. *)
Definition block_unknown_only : Paragraph.t :=
  Paragraph.mk cfg_unknown_only (JObj [("text", JStr ""); ("align", JStr "left")]).

Definition block_right_justify : Paragraph.t :=
  Paragraph.mk cfg_right_justify (JObj [("text", JStr ""); ("align", JStr "left")]).

Definition block_left_right_center : Paragraph.t :=
  Paragraph.mk cfg_left_right (JObj [("text", JStr ""); ("align", JStr "center")]).

(* ================================================================= *)
(** ** Order-preserving selections *)

Lemma subseq_refl {A : Type} (l : list A) : subseq l l.
Proof. induction l; constructor; assumption. Qed.

Lemma subseq_In {A : Type} (l1 l2 : list A) (x : A) :
  subseq l1 l2 -> In x l1 -> In x l2.
Proof.
  induction 1; simpl; intros Hin.
  - assumption.
  - right; auto.
  - destruct Hin; [left | right]; auto.
Qed.

(* ================================================================= *)
(** ** Facts about the built-ins *)

Lemma js_filter_subseq f l l' : js_filter f l = Ret l' -> subseq l' l.
Proof.
  revert l'; induction l as [|a rest IH]; simpl; intros l' H.
  - injection H as <-. constructor.
  - destruct (f a) as [b|]; [|discriminate].
    destruct (js_filter f rest) as [rest'|]; [|discriminate].
    injection H as <-.
    destruct b; constructor; apply IH; reflexivity.
Qed.

Lemma js_filter_In f l l' s :
  js_filter f l = Ret l' -> (In s l' <-> In s l /\ f s = Ret true).
Proof.
  revert l'; induction l as [|a rest IH]; simpl; intros l' H.
  - injection H as <-. simpl. tauto.
  - destruct (f a) as [b|] eqn:Hfa; [|discriminate].
    destruct (js_filter f rest) as [rest'|]; [|discriminate].
    injection H as <-.
    specialize (IH rest' eq_refl).
    destruct b; simpl; rewrite IH; split.
    + intros [->|[? ?]]; auto.
    + intros [[->|?] ?]; auto.
    + intros [? ?]; auto.
    + intros [[->|?] ?]; [congruence | auto].
Qed.

Lemma js_filter_pure (f : string -> bool) l :
  js_filter (fun a => Ret (f a)) l = Ret (filter f l).
Proof.
  induction l as [|a rest IH]; simpl; [reflexivity|].
  rewrite IH. destruct (f a); reflexivity.
Qed.

Lemma js_find_pure (f : string -> bool) l :
  js_find (fun a => Ret (f a)) l = Ret (find f l).
Proof.
  induction l as [|a rest IH]; simpl; [reflexivity|].
  destruct (f a); [reflexivity | assumption].
Qed.

Lemma find_string_member (l : list string) (s : string) :
  In s l -> find (fun a => strict_eq_str a (JStr s)) l = Some s.
Proof.
  induction l as [|a rest IH]; simpl; intros Hin; [contradiction|].
  destruct (String.eqb_spec a s) as [->|Hne]; [reflexivity|].
  destruct Hin as [Heq|Hin]; [contradiction | auto].
Qed.

Lemma find_string_absent (l : list string) (v : JsVal) :
  (forall s, v = JStr s -> ~ In s l) ->
  find (fun a => strict_eq_str a v) l = None.
Proof.
  intros Hv. induction l as [|a rest IH]; simpl; [reflexivity|].
  destruct (strict_eq_str a v) eqn:Heq.
  - destruct v; simpl in Heq; try discriminate.
    apply String.eqb_eq in Heq; subst a.
    exfalso; apply (Hv s eq_refl); left; reflexivity.
  - apply IH. intros s Hs Hin. apply (Hv s Hs). right; assumption.
Qed.

Lemma find_string_some (l : list string) (v : JsVal) (s : string) :
  find (fun a => strict_eq_str a v) l = Some s -> v = JStr s /\ In s l.
Proof.
  intros H. apply find_some in H. destruct H as [Hin Heq].
  destruct v; simpl in Heq; try discriminate.
  apply String.eqb_eq in Heq; subst. auto.
Qed.

Lemma member_of_dec (v : JsVal) (l : list string) :
  {s | v = JStr s /\ In s l} + {forall s, v = JStr s -> ~ In s l}.
Proof.
  destruct v as [| | | |s| |];
    try (right; intros s' Hs'; discriminate).
  destruct (in_dec string_dec s l) as [Hin|Hout].
  - left; exists s; auto.
  - right; intros s' Hs'; injection Hs' as <-; assumption.
Qed.

(** *** Trimming *)

Lemma trimEnd_empty_iff (s : string) :
  trimEnd s = "" <-> (forall c, In c (list_ascii_of_string s) -> is_ws c = true).
Proof.
  induction s as [|c rest IH]; simpl.
  - split; [intros _ c [] | reflexivity].
  - destruct (is_ws c) eqn:Hc; simpl.
    + destruct (String.eqb_spec (trimEnd rest) "") as [He|Hne].
      * split; [|reflexivity]. intros _ c' [<-|Hin]; [assumption|].
        apply IH; assumption.
      * split; [discriminate|]. intros Hall. exfalso; apply Hne, IH.
        intros c' Hin; apply Hall; right; assumption.
    + split; [discriminate|]. intros Hall.
      rewrite (Hall c (or_introl eq_refl)) in Hc; discriminate.
Qed.

Lemma trimStart_chars (s : string) (c : ascii) :
  In c (list_ascii_of_string s) ->
  is_ws c = true \/ In c (list_ascii_of_string (trimStart s)).
Proof.
  induction s as [|a rest IH]; simpl; [tauto|].
  intros [<-|Hin].
  - destruct (is_ws a) eqn:Ha; [left; reflexivity | right; left; reflexivity].
  - destruct (is_ws a); [auto | right; right; assumption].
Qed.

Lemma trimStart_sub (s : string) (c : ascii) :
  In c (list_ascii_of_string (trimStart s)) -> In c (list_ascii_of_string s).
Proof.
  induction s as [|a rest IH]; simpl; [tauto|].
  destruct (is_ws a); simpl; auto.
Qed.

(** The trimmed string is empty exactly when every character is white
    space. *)
Lemma trim_empty_iff (s : string) :
  trim s = "" <-> (forall c, In c (list_ascii_of_string s) -> is_ws c = true).
Proof.
  unfold trim. rewrite trimEnd_empty_iff. split; intros H c Hin.
  - destruct (trimStart_chars s c Hin) as [Hws|Hin']; auto.
  - apply H, trimStart_sub, Hin.
Qed.

(* ================================================================= *)
(** ** Facts about the getters *)

Import Paragraph.

(** Runs the monadic glue of a getter. *)
Ltac run := unfold bind, lift, ret, console_warn; simpl.

Lemma align_type_truthy (s : string) :
  In s ALIGN_TYPES -> truthy (JStr s) = true.
Proof.
  unfold ALIGN_TYPES; simpl.
  intros [<-|[<-|[<-|[<-|[]]]]]; reflexivity.
Qed.

Lemma available_subseq (this : t) (avail : list string) :
  availableAlignTypes this = Ret avail -> subseq avail ALIGN_TYPES.
Proof.
  unfold availableAlignTypes.
  destruct (get_prop (_config this) "alignTypes") as [alignTypes|]; [|discriminate].
  destruct (truthy alignTypes).
  - apply js_filter_subseq.
  - intros H; injection H as <-. apply subseq_refl.
Qed.

Lemma available_canonical (this : t) (avail : list string) (s : string) :
  availableAlignTypes this = Ret avail -> In s avail -> In s ALIGN_TYPES.
Proof. intros H. apply subseq_In, available_subseq with this, H. Qed.

Lemma available_truthy (this : t) (avail : list string) (s : string) :
  availableAlignTypes this = Ret avail -> In s avail -> truthy (JStr s) = true.
Proof. intros H Hin. eapply align_type_truthy, available_canonical; eauto. Qed.

(** The allowed set is computed without raising exactly for these
    configurations. *)
Lemma available_defined_iff (this : t) :
  (exists avail, availableAlignTypes this = Ret avail) <-> alignTypes_ok this.
Proof.
  unfold alignTypes_ok, availableAlignTypes. split.
  - intros [avail H].
    destruct (get_prop (_config this) "alignTypes") as [v|]; [|discriminate].
    exists v; split; [reflexivity|].
    destruct v as [| |b|n|s|l|fs]; simpl in *; auto;
      try (destruct b); try (destruct (n =? 0)%Z); simpl in *;
      auto; try discriminate.
    + right; right; eauto.
    + right; left; eauto.
  - intros [v [-> Hv]].
    destruct Hv as [Hf|[[l ->]|[s ->]]].
    + rewrite Hf; eauto.
    + cbn [truthy includes].
      rewrite (js_filter_pure (fun a => existsb (strict_eq_str a) l)). eauto.
    + cbn [truthy includes]. destruct (negb (s =? "")); [|eauto].
      rewrite (js_filter_pure (fun a => str_includes a s)). eauto.
Qed.

Lemma config_readable (this : t) (avail : list string) (k : string) :
  availableAlignTypes this = Ret avail ->
  exists v, get_prop (_config this) k = Ret v.
Proof.
  unfold availableAlignTypes, get_prop.
  destruct (_config this); try discriminate; eauto.
  destruct (own_prop k fields); eauto.
Qed.

Lemma userDefault_absent (this : t) (d : JsVal) (c : Console) :
  get_prop (_config this) "defaultAlignType" = Ret d ->
  truthy d = false ->
  userDefaultAlignType this c = (Ret DEFAULT_ALIGN_TYPE, c).
Proof.
  intros Hd Hf. unfold userDefaultAlignType. run. rewrite Hd, Hf. reflexivity.
Qed.

Lemma userDefault_run (this : t) (avail : list string) (d : JsVal) (c : Console) :
  availableAlignTypes this = Ret avail ->
  get_prop (_config this) "defaultAlignType" = Ret d ->
  userDefaultAlignType this c =
    if truthy d then
      match find (fun a => strict_eq_str a d) avail with
      | Some s => (Ret s, c)
      | None => (Ret DEFAULT_ALIGN_TYPE, c ++ [InvalidDefaultAlignType])
      end
    else (Ret DEFAULT_ALIGN_TYPE, c).
Proof.
  intros Ha Hd. unfold userDefaultAlignType. unfold bind, lift, ret, console_warn.
  rewrite Hd.
  destruct (truthy d); [|reflexivity].
  rewrite Ha, (js_find_pure (fun a => strict_eq_str a d)).
  destruct (find _ avail) as [s|] eqn:Hfind; [|reflexivity].
  apply find_string_some in Hfind. destruct Hfind as [_ Hin].
  unfold found_truthy. rewrite (available_truthy this avail s Ha Hin).
  reflexivity.
Qed.

Lemma currentAlignType_run (this : t) (avail : list string) (stored : JsVal)
      (c : Console) :
  availableAlignTypes this = Ret avail ->
  get_prop (_data this) "align" = Ret stored ->
  currentAlignType this c =
    match find (fun a => strict_eq_str a stored) avail with
    | Some s => (Ret s, c)
    | None => userDefaultAlignType this c
    end.
Proof.
  intros Ha Hs. unfold currentAlignType. unfold bind, lift, ret.
  rewrite Ha, Hs, (js_find_pure (fun a => strict_eq_str a stored)).
  destruct (find _ avail) as [s|] eqn:Hfind; [|reflexivity].
  apply find_string_some in Hfind. destruct Hfind as [_ Hin].
  unfold found_truthy. rewrite (available_truthy this avail s Ha Hin).
  reflexivity.
Qed.

(** The default and the current alignment do not depend on what the
    console holds; they only append to it. *)
Lemma userDefault_appends (this : t) (avail : list string) :
  availableAlignTypes this = Ret avail ->
  exists s w, forall c, userDefaultAlignType this c = (Ret s, c ++ w).
Proof.
  intros Ha.
  destruct (config_readable this avail "defaultAlignType" Ha) as [d Hd].
  destruct (truthy d) eqn:Ht.
  - destruct (find (fun a => strict_eq_str a d) avail) as [s|] eqn:Hfind.
    + exists s, []. intros c.
      rewrite (userDefault_run this avail d c Ha Hd), Ht, Hfind, app_nil_r.
      reflexivity.
    + exists DEFAULT_ALIGN_TYPE, [InvalidDefaultAlignType]. intros c.
      rewrite (userDefault_run this avail d c Ha Hd), Ht, Hfind. reflexivity.
  - exists DEFAULT_ALIGN_TYPE, []. intros c.
    rewrite (userDefault_absent this d c Hd Ht), app_nil_r. reflexivity.
Qed.

Lemma userDefault_canonical (this : t) (avail : list string) (s : string)
      (c c' : Console) :
  availableAlignTypes this = Ret avail ->
  userDefaultAlignType this c = (Ret s, c') ->
  In s ALIGN_TYPES.
Proof.
  intros Ha Hrun.
  destruct (config_readable this avail "defaultAlignType" Ha) as [d Hd].
  rewrite (userDefault_run this avail d c Ha Hd) in Hrun.
  destruct (truthy d).
  - destruct (find _ avail) as [s'|] eqn:Hfind.
    + apply find_string_some in Hfind. destruct Hfind as [_ Hin].
      injection Hrun as <- _. eapply available_canonical; eauto.
    + injection Hrun as <- _. left; reflexivity.
  - injection Hrun as <- _. left; reflexivity.
Qed.

Lemma currentAlignType_appends (this : t) (avail : list string) (stored : JsVal) :
  availableAlignTypes this = Ret avail ->
  get_prop (_data this) "align" = Ret stored ->
  exists s w,
    In s ALIGN_TYPES /\
    forall c, currentAlignType this c = (Ret s, c ++ w).
Proof.
  intros Ha Hs.
  destruct (find (fun a => strict_eq_str a stored) avail) as [s|] eqn:Hfind.
  - exists s, []. split.
    + apply find_string_some in Hfind. destruct Hfind as [_ Hin].
      eapply available_canonical; eauto.
    + intros c. rewrite (currentAlignType_run this avail stored c Ha Hs), Hfind.
      rewrite app_nil_r; reflexivity.
  - destruct (userDefault_appends this avail Ha) as [s [w Hrun]].
    exists s, w. split.
    + apply (userDefault_canonical this avail s [] ([] ++ w) Ha (Hrun [])).
    + intros c. rewrite (currentAlignType_run this avail stored c Ha Hs), Hfind.
      apply Hrun.
Qed.

Lemma available_In (this : t) (avail : list string) (alignTypes : JsVal)
      (s : string) :
  availableAlignTypes this = Ret avail ->
  get_prop (_config this) "alignTypes" = Ret alignTypes ->
  (In s avail <->
   In s ALIGN_TYPES /\ (truthy alignTypes = true -> includes alignTypes s = Ret true)).
Proof.
  unfold availableAlignTypes. intros Ha Hat. rewrite Hat in Ha.
  destruct (truthy alignTypes).
  - rewrite (js_filter_In _ _ _ s Ha). split; intros [H1 H2]; auto.
  - injection Ha as <-. split; [intros H; split; [assumption | discriminate] | tauto].
Qed.

Lemma falsy_not_member (this : t) (avail : list string) (v : JsVal) :
  availableAlignTypes this = Ret avail ->
  truthy v = false -> ~ member_of v avail.
Proof.
  intros Ha Hf [s [-> Hin]].
  rewrite (available_truthy this avail s Ha Hin) in Hf. discriminate.
Qed.

(* ================================================================= *)
(** ** C1: the allowed-set invariant *)

(** C1, as stated, fails: a configuration that names no canonical type
    yields an empty allowed set, with no fallback to the canonical
    universe, and a configuration that leaves out the canonical default
    yields a default and a current alignment outside the allowed set. *)
Lemma allowed_set_invariant_counterexample :
  (constructor editor_host (JBool false) cfg_unknown_only (JObj []) []
     = (Ret block_unknown_only, []) /\
   availableAlignTypes block_unknown_only = Ret [])
  /\
  (constructor editor_host (JBool false) cfg_right_justify (JObj []) []
     = (Ret block_right_justify, []) /\
   availableAlignTypes block_right_justify = Ret ["right"; "justify"] /\
   userDefaultAlignType block_right_justify [] = (Ret "left", []) /\
   currentAlignType block_right_justify [] = (Ret "left", []) /\
   ~ In "left" ["right"; "justify"]).
Proof.
  repeat split; try reflexivity.
  simpl. intros [H|[H|[]]]; discriminate.
Qed.

(** C1, amended: the allowed set is the canonical universe filtered by the
    configuration and is empty exactly when [alignTypes] is present and
    includes no canonical type; the effective default is a member of the
    allowed set exactly when the set holds the configured default or the
    canonical default; the current alignment is a member exactly when the
    set holds the stored alignment or the effective default.  So all of
    the invariant holds whenever the allowed set holds the canonical
    default. *)
Theorem allowed_set_membership
        (this : t) (avail : list string) (alignTypes d stored : JsVal)
        (c : Console) :
  availableAlignTypes this = Ret avail ->
  get_prop (_config this) "alignTypes" = Ret alignTypes ->
  get_prop (_config this) "defaultAlignType" = Ret d ->
  get_prop (_data this) "align" = Ret stored ->
  exists dflt c1 cur c2,
    userDefaultAlignType this c = (Ret dflt, c1) /\
    currentAlignType this c = (Ret cur, c2) /\
    subseq avail ALIGN_TYPES /\
    (avail = [] <->
     truthy alignTypes = true /\
     forall s, In s ALIGN_TYPES -> includes alignTypes s <> Ret true) /\
    (In dflt avail <-> member_of d avail \/ In DEFAULT_ALIGN_TYPE avail) /\
    (In cur avail <-> member_of stored avail \/ In dflt avail) /\
    (In DEFAULT_ALIGN_TYPE avail ->
     In dflt avail /\ In cur avail /\ avail <> []).
Proof.
  intros Ha Hat Hd Hs.
  assert (Hdflt : exists dflt c1,
             userDefaultAlignType this c = (Ret dflt, c1) /\
             (In dflt avail <-> member_of d avail \/ In DEFAULT_ALIGN_TYPE avail)).
  { rewrite (userDefault_run this avail d c Ha Hd).
    destruct (truthy d) eqn:Ht.
    - destruct (member_of_dec d avail) as [[s [-> Hin]]|Hout].
      + rewrite (find_string_member avail s Hin).
        exists s, c. split; [reflexivity|]. split; [intros _; left; exists s|]; auto.
      + rewrite (find_string_absent avail d Hout).
        eexists _, _. split; [reflexivity|]. split; [auto|].
        intros [[s [-> Hin]]|H]; [destruct (Hout s eq_refl Hin) | assumption].
    - eexists _, _. split; [reflexivity|]. split; [auto|].
      intros [Hm|H]; [|assumption].
      destruct (falsy_not_member this avail d Ha Ht Hm). }
  destruct Hdflt as [dflt [c1 [Hrun Hmem]]].
  assert (Hcur : exists cur c2,
             currentAlignType this c = (Ret cur, c2) /\
             (In cur avail <-> member_of stored avail \/ In dflt avail)).
  { rewrite (currentAlignType_run this avail stored c Ha Hs).
    destruct (member_of_dec stored avail) as [[s [-> Hin]]|Hout].
    - rewrite (find_string_member avail s Hin).
      exists s, c. split; [reflexivity|]. split; [intros _; left; exists s|]; auto.
    - rewrite (find_string_absent avail stored Hout).
      exists dflt, c1. split; [assumption|]. split; [auto|].
      intros [[s [-> Hin]]|H]; [destruct (Hout s eq_refl Hin) | assumption]. }
  destruct Hcur as [cur [c2 [Hrun' Hmem']]].
  exists dflt, c1, cur, c2.
  split; [assumption|]. split; [assumption|].
  split; [apply available_subseq with this; assumption|].
  split; [|split; [assumption|split; [assumption|]]].
  - split.
    + intros ->. destruct (truthy alignTypes) eqn:Ht.
      * split; [reflexivity|]. intros s Hin Hinc.
        apply (proj2 (available_In this [] alignTypes s Ha Hat)); auto.
      * exfalso.
        apply (proj2 (available_In this [] alignTypes "left" Ha Hat)).
        split; [left; reflexivity | congruence].
    + intros [Ht Hnone]. destruct avail as [|a rest]; [reflexivity|].
      exfalso.
      destruct (proj1 (available_In this (a :: rest) alignTypes a Ha Hat)
                      (or_introl eq_refl)) as [Hc Hinc].
      apply (Hnone a Hc), Hinc, Ht.
  - intros Hleft.
    assert (Hd' : In dflt avail) by (apply Hmem; right; assumption).
    split; [assumption|]. split; [apply Hmem'; right; assumption|].
    intros ->. destruct Hleft.
Qed.

(** The amended invariant at the configuration [{alignTypes: ["left",
    "right"]}] and the data [{align: "center"}]. *)
Lemma allowed_set_membership_witness :
  exists dflt c1 cur c2,
    userDefaultAlignType block_left_right_center [] = (Ret dflt, c1) /\
    currentAlignType block_left_right_center [] = (Ret cur, c2) /\
    subseq ["left"; "right"] ALIGN_TYPES /\
    (["left"; "right"] = [] <->
     truthy (JArr [JStr "left"; JStr "right"]) = true /\
     forall s, In s ALIGN_TYPES ->
               includes (JArr [JStr "left"; JStr "right"]) s <> Ret true) /\
    (In dflt ["left"; "right"] <->
     member_of JUndefined ["left"; "right"] \/
     In DEFAULT_ALIGN_TYPE ["left"; "right"]) /\
    (In cur ["left"; "right"] <->
     member_of (JStr "center") ["left"; "right"] \/ In dflt ["left"; "right"]) /\
    (In DEFAULT_ALIGN_TYPE ["left"; "right"] ->
     In dflt ["left"; "right"] /\ In cur ["left"; "right"] /\
     ["left"; "right"] <> []).
Proof.
  apply (allowed_set_membership block_left_right_center ["left"; "right"]
           (JArr [JStr "left"; JStr "right"]) JUndefined (JStr "center") []);
    reflexivity.
Defined.

(* ================================================================= *)
(** ** C2 and C10: the settings menu *)

Lemma renderSettings_run (this : t) (s : string) (w : Console) :
  (forall c, currentAlignType this c = (Ret s, c ++ w)) ->
  forall c,
    renderSettings this c =
      (Ret (map (fun align => mkEntry align (align =? s)) ALIGN_TYPES),
       (((c ++ w) ++ w) ++ w) ++ w).
Proof.
  intros Hcur c. unfold renderSettings, ALIGN_TYPES, js_map, bind, ret.
  repeat rewrite Hcur. reflexivity.
Qed.

(** C2 fails on the code: [renderSettings] maps over the canonical
    universe, not over the allowed set.  With [{alignTypes: ["left",
    "right"]}] the allowed set is [left, right], yet the menu has four
    entries, among them [center] and [justify]. *)
Theorem settings_menu_ignores_alignTypes :
  availableAlignTypes block_left_right_center = Ret ["left"; "right"] /\
  renderSettings block_left_right_center [] =
    (Ret [mkEntry "left" true; mkEntry "center" false;
          mkEntry "right" false; mkEntry "justify" false], []) /\
  ~ In "center" ["left"; "right"].
Proof.
  repeat split; try reflexivity.
  simpl. intros [H|[H|[]]]; discriminate.
Qed.

(** C10: whenever the configuration's [alignTypes] is absent, an array or
    a string, whatever it holds, and whatever the stored alignment is,
    [currentAlignType] returns a member of the canonical universe, and
    exactly one entry of the settings menu is active: the entry of the
    current alignment. *)
Theorem current_alignment_canonical
        (this : t) (stored : JsVal) (c : Console) :
  alignTypes_ok this ->
  get_prop (_data this) "align" = Ret stored ->
  exists cur c1 entries c2,
    currentAlignType this c = (Ret cur, c1) /\
    In cur ALIGN_TYPES /\
    renderSettings this c = (Ret entries, c2) /\
    map entryAlign entries = ALIGN_TYPES /\
    filter isActive entries = [mkEntry cur true] /\
    List.length (filter isActive entries) = 1.
Proof.
  intros Hok Hs.
  apply available_defined_iff in Hok. destruct Hok as [avail Ha].
  destruct (currentAlignType_appends this avail stored Ha Hs) as [cur [w [Hin Hrun]]].
  exists cur, (c ++ w). eexists _, _.
  split; [apply Hrun|]. split; [assumption|].
  split; [apply (renderSettings_run this cur w Hrun)|].
  unfold ALIGN_TYPES in *. simpl in Hin.
  destruct Hin as [<-|[<-|[<-|[<-|[]]]]]; repeat split; reflexivity.
Qed.

(** C10 at a configuration whose allowed set is empty and a stored
    alignment that is an arbitrary string. *)
Lemma current_alignment_canonical_witness :
  alignTypes_ok (mk cfg_unknown_only (JObj [("align", JStr "diagonal")])) /\
  get_prop (JObj [("align", JStr "diagonal")]) "align" = Ret (JStr "diagonal") /\
  exists cur c1 entries c2,
    currentAlignType (mk cfg_unknown_only (JObj [("align", JStr "diagonal")])) []
      = (Ret cur, c1) /\
    In cur ALIGN_TYPES /\
    renderSettings (mk cfg_unknown_only (JObj [("align", JStr "diagonal")])) []
      = (Ret entries, c2) /\
    map entryAlign entries = ALIGN_TYPES /\
    filter isActive entries = [mkEntry cur true] /\
    List.length (filter isActive entries) = 1.
Proof.
  assert (Hok : alignTypes_ok
                  (mk cfg_unknown_only (JObj [("align", JStr "diagonal")]))).
  { exists (JArr [JStr "top"]). split; [reflexivity|]. right; left; eauto. }
  split; [exact Hok|]. split; [reflexivity|].
  apply (current_alignment_canonical
           (mk cfg_unknown_only (JObj [("align", JStr "diagonal")]))
           (JStr "diagonal") [] Hok eq_refl).
Defined.

(* ================================================================= *)
(** ** C3: the current alignment *)

(** C3: the current alignment is the stored alignment when the stored
    alignment is a member of the allowed set, and the resolved default
    otherwise; for the configuration [{alignTypes: ["left", "right"]}] and
    the data [{align: "center"}] it is ["left"]. *)
Theorem current_alignment_rule :
  (forall (this : t) (avail : list string) (stored : JsVal) (c : Console),
      availableAlignTypes this = Ret avail ->
      get_prop (_data this) "align" = Ret stored ->
      (forall s, stored = JStr s -> In s avail ->
                 currentAlignType this c = (Ret s, c)) /\
      (~ member_of stored avail ->
       currentAlignType this c = userDefaultAlignType this c))
  /\
  (exists this,
      constructor editor_host (JBool false) cfg_left_right
                  (JObj [("align", JStr "center")]) [] = (Ret this, []) /\
      currentAlignType this [] = (Ret "left", [])).
Proof.
  split.
  - intros this avail stored c Ha Hs. split.
    + intros s -> Hin.
      rewrite (currentAlignType_run this avail (JStr s) c Ha Hs).
      rewrite (find_string_member avail s Hin). reflexivity.
    + intros Hout.
      rewrite (currentAlignType_run this avail stored c Ha Hs).
      rewrite (find_string_absent avail stored); [reflexivity|].
      intros s -> Hin. apply Hout. exists s; auto.
  - exists block_left_right_center. split; reflexivity.
Qed.

(** C3 at [{alignTypes: ["left", "right"]}] with the stored alignment
    ["right"], a member, and with ["center"], not a member. *)
Lemma current_alignment_rule_witness :
  currentAlignType (mk cfg_left_right (JObj [("align", JStr "right")])) []
    = (Ret "right", []) /\
  currentAlignType block_left_right_center []
    = userDefaultAlignType block_left_right_center [].
Proof.
  split.
  - apply (proj1 (proj1 current_alignment_rule
                    (mk cfg_left_right (JObj [("align", JStr "right")]))
                    ["left"; "right"] (JStr "right") [] eq_refl eq_refl)
                 "right" eq_refl).
    simpl; auto.
  - apply (proj2 (proj1 current_alignment_rule
                    block_left_right_center
                    ["left"; "right"] (JStr "center") [] eq_refl eq_refl)).
    intros [s [Hs Hin]]. injection Hs as <-.
    simpl in Hin. destruct Hin as [H|[H|[]]]; discriminate.
Defined.

(* ================================================================= *)
(** ** C4: the effective default *)

(** C4: a configured default that is present (truthy) and a member of the
    allowed set is returned; one that is present but not a member makes
    [console.warn] run once and the canonical default ["left"] be
    returned; without a configured default ["left"] is returned and
    nothing is logged.  The canonical default is returned unchecked: with
    [{alignTypes: ["right", "justify"], defaultAlignType: "center"}] the
    result is outside the allowed set. *)
Theorem resolve_default_rule :
  (forall (this : t) (avail : list string) (d : JsVal) (c : Console),
      availableAlignTypes this = Ret avail ->
      get_prop (_config this) "defaultAlignType" = Ret d ->
      (forall s, d = JStr s -> In s avail ->
                 userDefaultAlignType this c = (Ret s, c)) /\
      (truthy d = true -> ~ member_of d avail ->
       userDefaultAlignType this c =
         (Ret "left", c ++ [InvalidDefaultAlignType])) /\
      (truthy d = false ->
       userDefaultAlignType this c = (Ret "left", c)))
  /\
  (availableAlignTypes (mk cfg_right_justify_center JUndefined)
     = Ret ["right"; "justify"] /\
   userDefaultAlignType (mk cfg_right_justify_center JUndefined) []
     = (Ret "left", [InvalidDefaultAlignType]) /\
   ~ In "left" ["right"; "justify"]).
Proof.
  split.
  - intros this avail d c Ha Hd.
    rewrite (userDefault_run this avail d c Ha Hd). repeat split.
    + intros s -> Hin.
      rewrite (available_truthy this avail s Ha Hin).
      rewrite (find_string_member avail s Hin). reflexivity.
    + intros -> Hout. rewrite (find_string_absent avail d); [reflexivity|].
      intros s -> Hin. apply Hout. exists s; auto.
    + intros ->. reflexivity.
  - repeat split; try reflexivity.
    simpl. intros [H|[H|[]]]; discriminate.
Qed.

(** C4 at [{alignTypes: ["left", "right"]}] extended with a default that
    is a member, one that is not, and none. *)
Lemma resolve_default_rule_witness :
  userDefaultAlignType
    (mk (JObj [("alignTypes", JArr [JStr "left"; JStr "right"]);
               ("defaultAlignType", JStr "right")]) JUndefined) []
    = (Ret "right", []) /\
  userDefaultAlignType
    (mk (JObj [("alignTypes", JArr [JStr "left"; JStr "right"]);
               ("defaultAlignType", JStr "center")]) JUndefined) []
    = (Ret "left", [InvalidDefaultAlignType]) /\
  userDefaultAlignType (mk cfg_left_right JUndefined) [] = (Ret "left", []).
Proof.
  split; [|split].
  - apply (proj1 (proj1 resolve_default_rule
                    (mk (JObj [("alignTypes", JArr [JStr "left"; JStr "right"]);
                               ("defaultAlignType", JStr "right")]) JUndefined)
                    ["left"; "right"] (JStr "right") [] eq_refl eq_refl)
                 "right" eq_refl).
    simpl; auto.
  - apply (proj1 (proj2 (proj1 resolve_default_rule
                    (mk (JObj [("alignTypes", JArr [JStr "left"; JStr "right"]);
                               ("defaultAlignType", JStr "center")]) JUndefined)
                    ["left"; "right"] (JStr "center") [] eq_refl eq_refl))
                 eq_refl).
    intros [s [Hs Hin]]. injection Hs as <-.
    simpl in Hin. destruct Hin as [H|[H|[]]]; discriminate.
  - apply (proj2 (proj2 (proj1 resolve_default_rule
                    (mk cfg_left_right JUndefined)
                    ["left"; "right"] JUndefined [] eq_refl eq_refl))
                 eq_refl).
Defined.

(* ================================================================= *)
(** ** C5: the allowed set *)

Lemma existsb_strict_eq (s : string) (elems : list JsVal) :
  existsb (strict_eq_str s) elems = true <-> In (JStr s) elems.
Proof.
  rewrite existsb_exists. split.
  - intros [v [Hin Heq]]. destruct v; simpl in Heq; try discriminate.
    apply String.eqb_eq in Heq. subst. assumption.
  - intros Hin. exists (JStr s). split; [assumption|].
    simpl. apply String.eqb_refl.
Qed.

(** C5: without [alignTypes] the allowed set is the canonical universe
    [left, center, right, justify]; with an array it is the canonical
    universe filtered to the strings the array holds, in canonical order,
    whatever else the array holds, and nothing is raised. *)
Theorem compute_allowed_types_rule (this : t) (alignTypes : JsVal) :
  get_prop (_config this) "alignTypes" = Ret alignTypes ->
  (alignTypes = JUndefined ->
   availableAlignTypes this = Ret ["left"; "center"; "right"; "justify"]) /\
  (forall elems, alignTypes = JArr elems ->
     exists avail,
       availableAlignTypes this = Ret avail /\
       avail = filter (fun a => existsb (strict_eq_str a) elems)
                      ["left"; "center"; "right"; "justify"] /\
       subseq avail ["left"; "center"; "right"; "justify"] /\
       (forall s, In s avail <->
                  In s ["left"; "center"; "right"; "justify"] /\
                  In (JStr s) elems)).
Proof.
  intros Hat. split.
  - intros ->. unfold availableAlignTypes. rewrite Hat. reflexivity.
  - intros elems ->.
    assert (Ha : availableAlignTypes this =
                 Ret (filter (fun a => existsb (strict_eq_str a) elems) ALIGN_TYPES)).
    { unfold availableAlignTypes. rewrite Hat. cbn [truthy includes].
      apply (js_filter_pure (fun a => existsb (strict_eq_str a) elems)). }
    eexists. split; [exact Ha|]. split; [reflexivity|].
    split; [apply (available_subseq this _ Ha)|].
    intros s. rewrite filter_In, existsb_strict_eq. reflexivity.
Qed.

(** C5 at [{alignTypes: ["right", "bogus", "left"]}]: configuration order
    and the unknown entry leave no trace. *)
Lemma compute_allowed_types_rule_witness :
  exists avail,
    availableAlignTypes
      (mk (JObj [("alignTypes", JArr [JStr "right"; JStr "bogus"; JStr "left"])])
          JUndefined) = Ret avail /\
    avail = filter (fun a => existsb (strict_eq_str a)
                                     [JStr "right"; JStr "bogus"; JStr "left"])
                   ["left"; "center"; "right"; "justify"] /\
    subseq avail ["left"; "center"; "right"; "justify"] /\
    (forall s, In s avail <->
               In s ["left"; "center"; "right"; "justify"] /\
               In (JStr s) [JStr "right"; JStr "bogus"; JStr "left"]).
Proof.
  apply (proj2 (compute_allowed_types_rule
                  (mk (JObj [("alignTypes",
                              JArr [JStr "right"; JStr "bogus"; JStr "left"])])
                      JUndefined)
                  (JArr [JStr "right"; JStr "bogus"; JStr "left"]) eq_refl)
               [JStr "right"; JStr "bogus"; JStr "left"] eq_refl).
Defined.

(* ================================================================= *)
(** ** C6 and C7: normalisation and the absence of aborts *)

Lemma normalizeData_run (this : t) (data rawText rawAlign : JsVal) (c : Console) :
  typeof data = "object" ->
  get_prop data "text" = Ret rawText ->
  get_prop data "align" = Ret rawAlign ->
  _normalizeData this data c =
    if truthy rawAlign then
      (Ret (JObj [("text", if truthy rawText then rawText else JStr "");
                  ("align", rawAlign)]), c)
    else
      match userDefaultAlignType this c with
      | (Ret dflt, c') =>
          (Ret (JObj [("text", if truthy rawText then rawText else JStr "");
                      ("align", JStr dflt)]), c')
      | (Throw e, c') => (Throw e, c')
      end.
Proof.
  intros Hty Ht Ha. unfold _normalizeData. rewrite Hty. run.
  rewrite Ht, Ha. destruct (truthy rawAlign); [reflexivity|].
  destruct (userDefaultAlignType this c) as [[dflt|e] c']; reflexivity.
Qed.

Lemma normalizeData_non_object (this : t) (data : JsVal) (c : Console) :
  typeof data <> "object" ->
  _normalizeData this data c =
    match userDefaultAlignType this c with
    | (Ret dflt, c') =>
        (Ret (JObj [("text", JStr ""); ("align", JStr dflt)]), c')
    | (Throw e, c') => (Throw e, c')
    end.
Proof.
  intros Hty. unfold _normalizeData.
  destruct (String.eqb_spec (typeof data) "object") as [Heq|_]; [contradiction|].
  run. destruct (userDefaultAlignType this c) as [[dflt|e] c']; reflexivity.
Qed.

(** The guard of [_normalizeData] lets [null] through, whose type is
    ["object"], and reading its [text] raises. *)
Lemma normalizeData_null_raises (this : t) (c : Console) :
  _normalizeData this JNull c = (Throw TypeError, c).
Proof. reflexivity. Qed.

(** C6, as stated, fails: a raw text that is not a string, here the
    number 5, is kept and not replaced by the empty string. *)
Lemma normalize_text_counterexample :
  _normalizeData (mk (JObj []) JUndefined) (JObj [("text", JNum 5)]) []
    = (Ret (JObj [("text", JNum 5); ("align", JStr "left")]), []) /\
  get_prop (JObj [("text", JNum 5); ("align", JStr "left")]) "text"
    <> Ret (JStr "").
Proof. split; [reflexivity | discriminate]. Qed.

(** C6, amended: the text of the normalised record is the raw text when
    that is truthy, whatever its type and unchanged, and the empty string
    otherwise; its alignment is the raw alignment when that is truthy and
    the resolved default otherwise; and a raw input whose type is not
    ["object"] (undefined, a boolean, a number, a string) is normalised
    to the empty text with the resolved default. *)
Theorem normalize_rule :
  (forall (this : t) (data rawText rawAlign : JsVal) (c : Console),
      typeof data = "object" ->
      get_prop data "text" = Ret rawText ->
      get_prop data "align" = Ret rawAlign ->
      (truthy rawAlign = true ->
       _normalizeData this data c =
         (Ret (JObj [("text", if truthy rawText then rawText else JStr "");
                     ("align", rawAlign)]), c)) /\
      (truthy rawAlign = false ->
       forall dflt c', userDefaultAlignType this c = (Ret dflt, c') ->
       _normalizeData this data c =
         (Ret (JObj [("text", if truthy rawText then rawText else JStr "");
                     ("align", JStr dflt)]), c')))
  /\
  (forall (this : t) (data : JsVal) (c : Console) dflt c',
      typeof data <> "object" ->
      userDefaultAlignType this c = (Ret dflt, c') ->
      _normalizeData this data c =
        (Ret (JObj [("text", JStr ""); ("align", JStr dflt)]), c')).
Proof.
  split.
  - intros this data rawText rawAlign c Hty Ht Ha.
    rewrite (normalizeData_run this data rawText rawAlign c Hty Ht Ha).
    split.
    + intros ->. reflexivity.
    + intros -> dflt c' ->. reflexivity.
  - intros this data c dflt c' Hty Hd.
    rewrite (normalizeData_non_object this data c Hty), Hd. reflexivity.
Qed.

(** C6, amended, at the data [{text: " Hi ", align: "center"}], at
    [{text: 0}] and at the number 7. *)
Lemma normalize_rule_witness :
  _normalizeData (mk (JObj []) JUndefined)
                 (JObj [("text", JStr " Hi "); ("align", JStr "center")]) []
    = (Ret (JObj [("text", JStr " Hi "); ("align", JStr "center")]), []) /\
  _normalizeData (mk (JObj []) JUndefined) (JObj [("text", JNum 0)]) []
    = (Ret (JObj [("text", JStr ""); ("align", JStr "left")]), []) /\
  _normalizeData (mk (JObj []) JUndefined) (JNum 7) []
    = (Ret (JObj [("text", JStr ""); ("align", JStr "left")]), []).
Proof.
  split; [|split].
  - apply (proj1 (proj1 normalize_rule (mk (JObj []) JUndefined)
                    (JObj [("text", JStr " Hi "); ("align", JStr "center")])
                    (JStr " Hi ") (JStr "center") [] eq_refl eq_refl eq_refl)
                 eq_refl).
  - apply (proj2 (proj1 normalize_rule (mk (JObj []) JUndefined)
                    (JObj [("text", JNum 0)])
                    (JNum 0) JUndefined [] eq_refl eq_refl eq_refl)
                 eq_refl "left" [] eq_refl).
  - apply (proj2 normalize_rule (mk (JObj []) JUndefined) (JNum 7) [] "left" []).
    + discriminate.
    + reflexivity.
Defined.

Lemma normalized_align_readable (t1 al : JsVal) :
  get_prop (JObj [("text", t1); ("align", al)]) "align" = Ret al.
Proof. reflexivity. Qed.

(** C7, as stated, fails: with [preserveBlank] off, [validate] raises on
    saved data that lacks a text. *)
Lemma no_abort_counterexample :
  validate (mk (JObj []) JUndefined) (JObj []) = Throw TypeError.
Proof. reflexivity. Qed.

Lemma get_prop_raises (v : JsVal) (k : string) (e : JsError) :
  get_prop v k = Throw e -> e = TypeError.
Proof.
  destruct v; simpl; try discriminate; try (intros H; injection H as <-; reflexivity).
  destruct (own_prop k fields); discriminate.
Qed.

(** C7, amended: under a configuration whose [alignTypes] is absent, an
    array or a string, normalising any data other than [null] does not
    abort and yields a record with a text that is truthy or the empty
    string and an alignment that is truthy; [validate] does not abort
    when [preserveBlank] is on or the saved text is a string; with
    [preserveBlank] off and a saved text that is not a string it raises
    a [TypeError]. *)
Theorem no_abort_rule :
  (forall (this : t) (data : JsVal) (c : Console),
      alignTypes_ok this ->
      data <> JNull ->
      exists text align c',
        _normalizeData this data c
          = (Ret (JObj [("text", text); ("align", align)]), c') /\
        truthy align = true /\
        (truthy text = true \/ text = JStr ""))
  /\
  (forall (this : t) (saved : JsVal),
      userPreserveBlank this = Ret true -> validate this saved = Ret true)
  /\
  (forall (this : t) (saved : JsVal) (s : string),
      userPreserveBlank this = Ret false ->
      get_prop saved "text" = Ret (JStr s) ->
      exists b, validate this saved = Ret b)
  /\
  (forall (this : t) (saved : JsVal),
      userPreserveBlank this = Ret false ->
      (forall s, get_prop saved "text" <> Ret (JStr s)) ->
      validate this saved = Throw TypeError).
Proof.
  split; [|split; [|split]].
  - intros this data c Hok Hnull.
    apply available_defined_iff in Hok. destruct Hok as [avail Ha].
    destruct (userDefault_appends this avail Ha) as [dflt [w Hd]].
    assert (Hdt : truthy (JStr dflt) = true).
    { apply align_type_truthy.
      apply (userDefault_canonical this avail dflt c (c ++ w) Ha (Hd c)). }
    destruct (String.eqb_spec (typeof data) "object") as [Hty|Hty].
    + assert (Hrd : exists rt ra, get_prop data "text" = Ret rt /\
                                  get_prop data "align" = Ret ra).
      { destruct data; try discriminate; try contradiction; simpl.
        - eauto.
        - destruct (own_prop "text" fields), (own_prop "align" fields); eauto. }
      destruct Hrd as [rt [ra [Hrt Hra]]].
      rewrite (normalizeData_run this data rt ra c Hty Hrt Hra).
      destruct (truthy ra) eqn:Htra.
      * eexists _, _, _. split; [reflexivity|]. split; [assumption|].
        destruct (truthy rt) eqn:Htrt; auto.
      * rewrite (Hd c). eexists _, _, _. split; [reflexivity|].
        split; [assumption|]. destruct (truthy rt) eqn:Htrt; auto.
    + rewrite (normalizeData_non_object this data c Hty), (Hd c).
      eexists _, _, _. split; [reflexivity|]. split; [assumption|]. auto.
  - intros this saved Hp. unfold validate. rewrite Hp. reflexivity.
  - intros this saved s Hp Ht. unfold validate. rewrite Hp, Ht. simpl. eauto.
  - intros this saved Hp Ht. unfold validate. rewrite Hp. simpl.
    destruct (get_prop saved "text") as [v|e] eqn:Hg.
    + destruct v; try reflexivity.
      exfalso. apply (Ht s). reflexivity.
    + rewrite (get_prop_raises saved "text" e Hg). reflexivity.
Qed.

(** C7, amended, at the data ["oops"] (a string, not a record) and at a
    record without a text under the empty configuration, and at
    [validate] with [preserveBlank] on and saved data [undefined], with
    [preserveBlank] off and a string text, and with [preserveBlank] off
    and a numeric text. *)
Lemma no_abort_rule_witness :
  (exists text align c',
      _normalizeData (mk (JObj []) JUndefined) (JStr "oops") []
        = (Ret (JObj [("text", text); ("align", align)]), c') /\
      truthy align = true /\
      (truthy text = true \/ text = JStr ""))
  /\
  (exists text align c',
      _normalizeData (mk (JObj []) JUndefined)
                     (JObj [("align", JStr "right")]) []
        = (Ret (JObj [("text", text); ("align", align)]), c') /\
      truthy align = true /\
      (truthy text = true \/ text = JStr ""))
  /\
  validate (mk (JObj [("preserveBlank", JBool true)]) JUndefined) JUndefined
    = Ret true
  /\
  (exists b,
      validate (mk (JObj []) JUndefined) (JObj [("text", JStr "Hi")]) = Ret b)
  /\
  validate (mk (JObj []) JUndefined) (JObj [("text", JNum 3)]) = Throw TypeError.
Proof.
  assert (Hok : alignTypes_ok (mk (JObj []) JUndefined)).
  { exists JUndefined. split; [reflexivity | left; reflexivity]. }
  split; [|split; [|split; [|split]]].
  - apply (proj1 no_abort_rule (mk (JObj []) JUndefined) (JStr "oops") [] Hok).
    discriminate.
  - apply (proj1 no_abort_rule (mk (JObj []) JUndefined)
                 (JObj [("align", JStr "right")]) [] Hok).
    discriminate.
  - apply (proj1 (proj2 no_abort_rule)
                 (mk (JObj [("preserveBlank", JBool true)]) JUndefined)
                 JUndefined eq_refl).
  - apply (proj1 (proj2 (proj2 no_abort_rule))
                 (mk (JObj []) JUndefined) (JObj [("text", JStr "Hi")]) "Hi"
                 eq_refl eq_refl).
  - apply (proj2 (proj2 (proj2 no_abort_rule))
                 (mk (JObj []) JUndefined) (JObj [("text", JNum 3)]) eq_refl).
    intros s; discriminate.
Defined.

(* ================================================================= *)
(** ** C8: validation on save *)

Lemma trimStart_split (s : string) :
  exists pre, s = (pre ++ trimStart s)%string /\ all_ws pre = true.
Proof.
  induction s as [|ch rest [pre [Heq Hws]]]; simpl.
  - exists "". split; reflexivity.
  - destruct (is_ws ch) eqn:Hch.
    + exists (String ch pre). split.
      * simpl. rewrite <- Heq. reflexivity.
      * unfold all_ws in *. simpl. rewrite Hch. assumption.
    + exists "". split; reflexivity.
Qed.

Lemma trimEnd_split (s : string) :
  exists post, s = (trimEnd s ++ post)%string /\ all_ws post = true.
Proof.
  induction s as [|ch rest [post [Heq Hws]]]; simpl.
  - exists "". split; reflexivity.
  - destruct (is_ws ch && (trimEnd rest =? ""))%bool eqn:Hc.
    + apply andb_prop in Hc. destruct Hc as [Hch He].
      apply String.eqb_eq in He. rewrite He in Heq. simpl in Heq.
      exists (String ch post). split.
      * simpl. rewrite <- Heq. reflexivity.
      * unfold all_ws in *. simpl. rewrite Hch. assumption.
    + exists post. split; [|assumption].
      simpl. rewrite <- Heq. reflexivity.
Qed.

(** [trim s] is [s] without a prefix and a suffix of white space. *)
Lemma trim_split (s : string) :
  exists pre post,
    s = (pre ++ trim s ++ post)%string /\
    all_ws pre = true /\ all_ws post = true.
Proof.
  destruct (trimStart_split s) as [pre [Hs Hpre]].
  destruct (trimEnd_split (trimStart s)) as [post [Ht Hpost]].
  exists pre, post. split; [|split; assumption].
  unfold trim. rewrite <- Ht. assumption.
Qed.

Lemma trimStart_head (s : string) :
  match trimStart s with
  | EmptyString => True
  | String ch _ => is_ws ch = false
  end.
Proof.
  induction s as [|ch rest IH]; simpl; [exact I|].
  destruct (is_ws ch) eqn:Hch; [assumption | exact Hch].
Qed.

Lemma trimEnd_head (s : string) :
  match s with
  | EmptyString => True
  | String ch _ => is_ws ch = false
  end ->
  match trimEnd s with
  | EmptyString => True
  | String ch _ => is_ws ch = false
  end.
Proof.
  destruct s as [|ch rest]; simpl; [auto|].
  intros Hch. rewrite Hch. simpl. exact Hch.
Qed.

(** What remains after trimming does not end with white space. *)
Lemma trimEnd_last (s : string) :
  match rev (list_ascii_of_string (trimEnd s)) with
  | [] => True
  | ch :: _ => is_ws ch = false
  end.
Proof.
  induction s as [|ch rest IH]; simpl; [exact I|].
  destruct (is_ws ch && (trimEnd rest =? ""))%bool eqn:Hc; simpl; [exact I|].
  destruct (rev (list_ascii_of_string (trimEnd rest))) as [|x l] eqn:Hrev.
  - simpl. apply (f_equal (@rev ascii)) in Hrev. rewrite rev_involutive in Hrev.
    simpl in Hrev.
    assert (He : trimEnd rest = "").
    { destruct (trimEnd rest); [reflexivity | discriminate]. }
    rewrite He in Hc. simpl in Hc. rewrite andb_true_r in Hc. assumption.
  - simpl. assumption.
Qed.

(** C8: with [preserveBlank] off, [validate] answers whether the saved
    text trimmed of leading and trailing white space is non-empty, that
    is, whether the text holds a character that is not white space; it
    returns a boolean only, so the text is left as it is.  With
    [preserveBlank] on it answers [true].  With [preserveBlank] false and
    the text of three spaces it answers [false]. *)
Theorem validate_rule :
  (forall (this : t) (saved : JsVal) (s : string),
      userPreserveBlank this = Ret false ->
      get_prop saved "text" = Ret (JStr s) ->
      validate this saved = Ret (negb (trim s =? "")) /\
      (exists pre post,
          s = (pre ++ trim s ++ post)%string /\
          all_ws pre = true /\ all_ws post = true /\
          match trim s with
          | EmptyString => True
          | String ch _ => is_ws ch = false
          end /\
          match rev (list_ascii_of_string (trim s)) with
          | [] => True
          | ch :: _ => is_ws ch = false
          end) /\
      (validate this saved = Ret true <->
       exists ch, In ch (list_ascii_of_string s) /\ is_ws ch = false))
  /\
  (forall (this : t) (saved : JsVal),
      userPreserveBlank this = Ret true -> validate this saved = Ret true)
  /\
  validate (mk (JObj [("preserveBlank", JBool false)]) JUndefined)
           (JObj [("text", JStr "   ")]) = Ret false.
Proof.
  split; [|split].
  - intros this saved s Hp Ht.
    assert (Hv : validate this saved = Ret (negb (trim s =? ""))).
    { unfold validate. rewrite Hp, Ht. reflexivity. }
    split; [assumption|]. split.
    + destruct (trim_split s) as [pre [post [Hs [Hpre Hpost]]]].
      exists pre, post. repeat split; try assumption.
      * unfold trim. apply trimEnd_head, trimStart_head.
      * unfold trim. apply trimEnd_last.
    + rewrite Hv. split.
      * intros H. injection H as H. apply negb_true_iff in H.
        apply String.eqb_neq in H.
        assert (Hex : ~ forall ch, In ch (list_ascii_of_string s) -> is_ws ch = true).
        { intros Hall. apply H, trim_empty_iff, Hall. }
        clear - Hex. induction (list_ascii_of_string s) as [|a l IH].
        -- exfalso. apply Hex. intros ch [].
        -- destruct (is_ws a) eqn:Ha.
           ++ destruct IH as [ch [Hin Hch]].
              { intros Hall. apply Hex. intros ch [<-|Hin]; auto. }
              exists ch. split; [right|]; assumption.
           ++ exists a. split; [left; reflexivity | assumption].
      * intros [ch [Hin Hch]]. f_equal. apply negb_true_iff, String.eqb_neq.
        intros He. rewrite (proj1 (trim_empty_iff s) He ch Hin) in Hch.
        discriminate.
  - intros this saved Hp. unfold validate. rewrite Hp. reflexivity.
  - reflexivity.
Qed.

(** C8 at the saved text [" a "] with [preserveBlank] absent, and at the
    empty text with [preserveBlank] on. *)
Lemma validate_rule_witness :
  validate (mk (JObj []) JUndefined) (JObj [("text", JStr " a ")]) = Ret true /\
  validate (mk (JObj [("preserveBlank", JBool true)]) JUndefined)
           (JObj [("text", JStr "")]) = Ret true.
Proof.
  split.
  - apply (proj1 (proj1 validate_rule (mk (JObj []) JUndefined)
                    (JObj [("text", JStr " a ")]) " a " eq_refl eq_refl)).
  - apply (proj1 (proj2 validate_rule)
                 (mk (JObj [("preserveBlank", JBool true)]) JUndefined)
                 (JObj [("text", JStr "")]) eq_refl).
Defined.

(* ================================================================= *)
(** ** C9: the alignment survives a round trip *)

(** C9: when the alignment of the data [d] is a member of the allowed
    set, normalising [d], saving the block that holds the result, and
    normalising what was saved, yields the alignment of [d] at every
    step, and logs nothing. *)
Theorem align_round_trip
        (this : t) (avail : list string) (d : JsVal) (a innerHTML : string)
        (c : Console) :
  availableAlignTypes this = Ret avail ->
  get_prop d "align" = Ret (JStr a) ->
  In a avail ->
  exists n1 saved n2,
    _normalizeData this d c = (Ret n1, c) /\
    save (mk (_config this) n1) innerHTML c = (Ret saved, c) /\
    _normalizeData this saved c = (Ret n2, c) /\
    get_prop n1 "align" = Ret (JStr a) /\
    get_prop saved "align" = Ret (JStr a) /\
    get_prop n2 "align" = Ret (JStr a).
Proof.
  intros Ha Hd Hin.
  assert (Hta : truthy (JStr a) = true) by (eapply available_truthy; eauto).
  assert (Hobj : typeof d = "object" /\ exists rt, get_prop d "text" = Ret rt).
  { destruct d; simpl in Hd; try discriminate. split; [reflexivity|].
    simpl. destruct (own_prop "text" fields); eauto. }
  destruct Hobj as [Hty [rt Hrt]].
  pose proof (normalizeData_run this d rt (JStr a) c Hty Hrt Hd) as Hn1.
  rewrite Hta in Hn1.
  set (n1 := JObj [("text", if truthy rt then rt else JStr ""); ("align", JStr a)]) in *.
  assert (Hcur : currentAlignType (mk (_config this) n1) c = (Ret a, c)).
  { rewrite (currentAlignType_run (mk (_config this) n1) avail (JStr a) c Ha eq_refl).
    rewrite (find_string_member avail a Hin). reflexivity. }
  set (saved := JObj [("text", JStr innerHTML); ("align", JStr a)]).
  pose proof (normalizeData_run this saved (JStr innerHTML) (JStr a) c
                eq_refl eq_refl eq_refl) as Hn2.
  rewrite Hta in Hn2.
  exists n1, saved. eexists.
  split; [exact Hn1|]. split; [|split; [exact Hn2|]].
  - unfold save, bind, ret. rewrite Hcur. reflexivity.
  - repeat split; reflexivity.
Qed.

(** C9 at [{alignTypes: ["left", "right"]}] and the data [{text: "Hi",
    align: "right"}]. *)
Lemma align_round_trip_witness :
  exists n1 saved n2,
    _normalizeData (mk cfg_left_right JUndefined)
                   (JObj [("text", JStr "Hi"); ("align", JStr "right")]) []
      = (Ret n1, []) /\
    save (mk cfg_left_right n1) "Hi" [] = (Ret saved, []) /\
    _normalizeData (mk cfg_left_right JUndefined) saved [] = (Ret n2, []) /\
    get_prop n1 "align" = Ret (JStr "right") /\
    get_prop saved "align" = Ret (JStr "right") /\
    get_prop n2 "align" = Ret (JStr "right").
Proof.
  apply (align_round_trip (mk cfg_left_right JUndefined) ["left"; "right"]
           (JObj [("text", JStr "Hi"); ("align", JStr "right")])
           "right" "Hi" [] eq_refl eq_refl).
  simpl; auto.
Defined.

(* ================================================================= *)
(** ** The remaining scenarios of the specification *)

(** Empty configuration, data [{text: "Hi", align: "center"}]: the
    current alignment is ["center"]. *)
Example scenario_stored_alignment_kept :
  exists this,
    constructor editor_host (JBool false) JUndefined
                (JObj [("text", JStr "Hi"); ("align", JStr "center")]) []
      = (Ret this, []) /\
    currentAlignType this [] = (Ret "center", []).
Proof. eexists. split; reflexivity. Qed.

(** [{alignTypes: ["right", "justify"], defaultAlignType: "center"}] and
    data without an alignment: the block is built with the alignment
    ["left"], outside the allowed set, and the warning is logged once by
    the normalisation and once more by every later read of the current
    alignment. *)
Example scenario_unclamped_default :
  exists this,
    constructor editor_host (JBool false) cfg_right_justify_center
                (JObj [("text", JStr "Hi")]) []
      = (Ret this, [InvalidDefaultAlignType; InvalidDefaultAlignType]) /\
    _data this = JObj [("text", JStr "Hi"); ("align", JStr "left")] /\
    availableAlignTypes this = Ret ["right"; "justify"] /\
    currentAlignType this [] = (Ret "left", [InvalidDefaultAlignType]).
Proof.
  exists (mk cfg_right_justify_center
             (JObj [("text", JStr "Hi"); ("align", JStr "left")])).
  repeat split; reflexivity.
Qed.

(** A string is accepted as [alignTypes], and is searched for the names of
    the canonical types. *)
Example scenario_alignTypes_string :
  availableAlignTypes (mk (JObj [("alignTypes", JStr "center,left")]) JUndefined)
    = Ret ["left"; "center"].
Proof. reflexivity. Qed.

(** Any other truthy [alignTypes] has no [includes] to call. *)
Example scenario_alignTypes_number :
  availableAlignTypes (mk (JObj [("alignTypes", JNum 4)]) JUndefined)
    = Throw TypeError.
Proof. reflexivity. Qed.

(* ================================================================= *)
(** ** Beyond the claims: normalised data *)

Lemma userDefault_returns_canonical (this : t) (s : string) (c c' : Console) :
  userDefaultAlignType this c = (Ret s, c') -> In s ALIGN_TYPES.
Proof.
  intros H. destruct (availableAlignTypes this) as [avail|e] eqn:Ha.
  - eapply userDefault_canonical; eauto.
  - unfold userDefaultAlignType, bind, lift, ret in H.
    destruct (get_prop (_config this) "defaultAlignType") as [d|]; [|discriminate].
    destruct (truthy d).
    + rewrite Ha in H. discriminate.
    + injection H as <- _. left; reflexivity.
Qed.

Lemma normalizeData_shape (this : t) (data n : JsVal) (c c' : Console) :
  _normalizeData this data c = (Ret n, c') ->
  exists text align,
    n = JObj [("text", text); ("align", align)] /\
    truthy align = true /\
    (truthy text = true \/ text = JStr "").
Proof.
  unfold _normalizeData.
  set (record := if negb (typeof data =? "object") then JObj [] else data).
  unfold bind, lift, ret.
  destruct (get_prop record "text") as [rt|]; [|discriminate].
  destruct (get_prop record "align") as [ra|]; [|discriminate].
  assert (Ht : truthy (if truthy rt then rt else JStr "") = true \/
               (if truthy rt then rt else JStr "") = JStr "").
  { destruct (truthy rt) eqn:Hrt; auto. }
  destruct (truthy ra) eqn:Hra.
  - intros H; injection H as <- _. eexists _, _. split; [reflexivity|]. auto.
  - destruct (userDefaultAlignType this c) as [[dflt|e] c1] eqn:Hd; [|discriminate].
    intros H; injection H as <- _. eexists _, _. split; [reflexivity|].
    split; [|assumption].
    apply align_type_truthy, (userDefault_returns_canonical this dflt c c1 Hd).
Qed.

(** X1: normalising is idempotent.  Whatever [_normalizeData] returns, it
    returns unchanged when given it again, under any configuration and
    without reading the default or writing to the console. *)
Theorem normalize_idempotent
        (this other : t) (data n : JsVal) (c c' c2 : Console) :
  _normalizeData this data c = (Ret n, c') ->
  _normalizeData other n c2 = (Ret n, c2).
Proof.
  intros H.
  destruct (normalizeData_shape this data n c c' H)
    as [text [align [-> [Ha Ht]]]].
  rewrite (normalizeData_run other (JObj [("text", text); ("align", align)])
             text align c2 eq_refl eq_refl eq_refl).
  rewrite Ha. destruct Ht as [Ht| ->]; [rewrite Ht|]; reflexivity.
Qed.

(** X1 at the data [{text: 0}], normalised under the empty configuration
    and again under [{alignTypes: ["right", "justify"], defaultAlignType:
    "center"}]. *)
Lemma normalize_idempotent_witness :
  _normalizeData (mk cfg_right_justify_center JUndefined)
                 (JObj [("text", JStr ""); ("align", JStr "left")]) []
    = (Ret (JObj [("text", JStr ""); ("align", JStr "left")]), []).
Proof.
  apply (normalize_idempotent (mk (JObj []) JUndefined)
           (mk cfg_right_justify_center JUndefined)
           (JObj [("text", JNum 0)])
           (JObj [("text", JStr ""); ("align", JStr "left")]) [] [] []).
  reflexivity.
Defined.

(* ================================================================= *)
(** ** Beyond the claims: saving *)

Lemma save_run (this : t) (innerHTML : string) (saved : JsVal) (c c' : Console) :
  save this innerHTML c = (Ret saved, c') ->
  exists cur,
    currentAlignType this c = (Ret cur, c') /\
    saved = JObj [("text", JStr innerHTML); ("align", JStr cur)].
Proof.
  unfold save, bind, ret.
  destruct (currentAlignType this c) as [[cur|e] c1]; [|discriminate].
  intros H; injection H as <- <-. exists cur. auto.
Qed.

Lemma currentAlignType_available (this : t) (cur : string) (c c' : Console) :
  currentAlignType this c = (Ret cur, c') ->
  exists avail, availableAlignTypes this = Ret avail.
Proof.
  unfold currentAlignType, bind, lift.
  destruct (availableAlignTypes this) as [avail|e]; [eauto | discriminate].
Qed.

(** X2: [validate] does not raise on what [save] returned: it answers
    [true] when [preserveBlank] is on, and otherwise whether the content
    of the element is more than white space. *)
Theorem validate_after_save
        (this : t) (innerHTML : string) (saved : JsVal) (c c' : Console) :
  save this innerHTML c = (Ret saved, c') ->
  exists preserve,
    userPreserveBlank this = Ret preserve /\
    validate this saved = Ret (preserve || negb (trim innerHTML =? "")).
Proof.
  intros Hs. destruct (save_run this innerHTML saved c c' Hs) as [cur [Hc ->]].
  destruct (currentAlignType_available this cur c c' Hc) as [avail Ha].
  destruct (config_readable this avail "preserveBlank" Ha) as [v Hv].
  exists (truthy v). unfold validate, userPreserveBlank. rewrite Hv.
  split; [reflexivity|]. destruct (truthy v); reflexivity.
Qed.

(** X2 at the block of [{alignTypes: ["left", "right"]}] and the content
    of two spaces. *)
Lemma validate_after_save_witness :
  exists preserve,
    userPreserveBlank block_left_right_center = Ret preserve /\
    validate block_left_right_center
             (JObj [("text", JStr "  "); ("align", JStr "left")])
      = Ret (preserve || negb (trim "  " =? "")).
Proof.
  apply (validate_after_save block_left_right_center "  "
           (JObj [("text", JStr "  "); ("align", JStr "left")]) [] []).
  reflexivity.
Defined.

(** The value of the current alignment depends on the configuration and
    on the stored alignment only, not on the console. *)
Lemma currentAlignType_value (this : t) (avail : list string) (stored : JsVal)
      (cur : string) (c c' : Console) :
  availableAlignTypes this = Ret avail ->
  get_prop (_data this) "align" = Ret stored ->
  currentAlignType this c = (Ret cur, c') ->
  exists w, forall c2, currentAlignType this c2 = (Ret cur, c2 ++ w).
Proof.
  intros Ha Hs Hc.
  destruct (currentAlignType_appends this avail stored Ha Hs) as [s [w [_ Hrun]]].
  rewrite Hrun in Hc. injection Hc as <- _. exists w. assumption.
Qed.

(** What [currentAlignType] returned is returned again once stored. *)
Lemma currentAlignType_stable (this this' : t) (text : JsVal) (cur : string)
      (c c' : Console) :
  currentAlignType this c = (Ret cur, c') ->
  _config this' = _config this ->
  _data this' = JObj [("text", text); ("align", JStr cur)] ->
  exists w, forall c2, currentAlignType this' c2 = (Ret cur, c2 ++ w).
Proof.
  intros Hc Hcfg Hdata.
  destruct (currentAlignType_available this cur c c' Hc) as [avail Ha].
  assert (Ha' : availableAlignTypes this' = Ret avail).
  { unfold availableAlignTypes in *. rewrite Hcfg. assumption. }
  assert (Hs' : get_prop (_data this') "align" = Ret (JStr cur)).
  { rewrite Hdata. reflexivity. }
  destruct (in_dec string_dec cur avail) as [Hin|Hout].
  - exists []. intros c2.
    rewrite (currentAlignType_run this' avail (JStr cur) c2 Ha' Hs').
    rewrite (find_string_member avail cur Hin), app_nil_r. reflexivity.
  - assert (Hd : userDefaultAlignType this c = (Ret cur, c')).
    { unfold currentAlignType, bind, lift, ret in Hc. rewrite Ha in Hc.
      destruct (js_find _ avail) as [[found|]|e] eqn:Hfind; try discriminate.
      - destruct (negb (found_truthy (Some found))) eqn:Ht; [assumption|].
        injection Hc as <- _. exfalso. apply Hout.
        clear - Hfind. induction avail as [|a rest IH]; simpl in Hfind;
          [discriminate|].
        destruct (get_prop (_data this) "align") as [v|]; [|discriminate].
        destruct (strict_eq_str a v).
        + injection Hfind as ->. left; reflexivity.
        + right. apply IH, Hfind.
      - assumption. }
    assert (Hd' : forall c2, userDefaultAlignType this' c2 = userDefaultAlignType this c2).
    { intros c2. unfold userDefaultAlignType, availableAlignTypes.
      rewrite Hcfg. reflexivity. }
    destruct (userDefault_appends this avail Ha) as [s [w Hrun]].
    rewrite Hrun in Hd. injection Hd as <- _.
    exists w. intros c2.
    rewrite (currentAlignType_run this' avail (JStr s) c2 Ha' Hs').
    rewrite (find_string_absent avail (JStr s)).
    + rewrite Hd'. apply Hrun.
    + intros s' Hs Hin. injection Hs as <-. contradiction.
Qed.

Lemma js_find_some_In f l (a : string) :
  js_find f l = Ret (Some a) -> In a l.
Proof.
  induction l as [|x rest IH]; simpl; [discriminate|].
  destruct (f x) as [[|]|]; try discriminate.
  - intros H; injection H as ->. left; reflexivity.
  - intros H. right. apply IH, H.
Qed.

Lemma currentAlignType_returns_canonical (this : t) (cur : string)
      (c c' : Console) :
  currentAlignType this c = (Ret cur, c') -> In cur ALIGN_TYPES.
Proof.
  intros Hc.
  destruct (currentAlignType_available this cur c c' Hc) as [avail Ha].
  unfold currentAlignType, bind, lift, ret in Hc. rewrite Ha in Hc.
  destruct (js_find _ avail) as [[found|]|e] eqn:Hfind; try discriminate.
  - destruct (negb (found_truthy (Some found))).
    + apply (userDefault_returns_canonical this cur c c' Hc).
    + injection Hc as <- _.
      apply (available_canonical this avail found Ha), (js_find_some_In _ _ _ Hfind).
  - apply (userDefault_returns_canonical this cur c c' Hc).
Qed.

Lemma align_class_token (cur : string) :
  In cur ALIGN_TYPES ->
  (wrapperForAlignment cur =? "") = false /\
  has_ascii_ws (wrapperForAlignment cur) = false.
Proof.
  unfold ALIGN_TYPES. simpl.
  intros [<-|[<-|[<-|[<-|[]]]]]; split; reflexivity.
Qed.

Lemma element_classes (nts : Z -> string) (block : JsVal) (cls : string) :
  domTokenList_add nts [] [JStr "ce-paragraph"; block; JStr cls] =
    match to_string nts block with
    | Throw e => Throw e
    | Ret tok =>
        if tok =? "" then Throw SyntaxError
        else if has_ascii_ws tok then Throw InvalidCharacterError
        else if cls =? "" then Throw SyntaxError
        else if has_ascii_ws cls then Throw InvalidCharacterError
        else Ret (fold_left tokenSet_append ["ce-paragraph"; tok; cls] [])
    end.
Proof.
  unfold domTokenList_add. cbn [to_strings].
  destruct (to_string nts block) as [tok|e]; cbn [to_string]; [|reflexivity].
  change (validate_tokens ["ce-paragraph"; tok; cls])
    with (if tok =? "" then Throw SyntaxError
          else if has_ascii_ws tok then Throw InvalidCharacterError
          else if cls =? "" then Throw SyntaxError
          else if has_ascii_ws cls then Throw InvalidCharacterError
          else Ret tt).
  destruct (tok =? ""); [reflexivity|].
  destruct (has_ascii_ws tok); [reflexivity|].
  destruct (cls =? ""); [reflexivity|].
  destruct (has_ascii_ws cls); reflexivity.
Qed.

(** [_getElement] returns exactly when each of its steps does. *)
Lemma getElement_run (host : Host) (readOnly block : JsVal) (this : t)
      (c c' : Console) (cur tok placeholder html : string)
      (key translated text : JsVal) :
  currentAlignType this c = (Ret cur, c') ->
  to_string (numberToString host) block = Ret tok ->
  tok <> "" -> has_ascii_ws tok = false ->
  get_prop (_config this) "placeholder" = Ret key ->
  api_i18n_t host (if truthy key then key else JStr "") = Ret translated ->
  to_string (numberToString host) translated = Ret placeholder ->
  get_prop (_data this) "text" = Ret text ->
  to_string (numberToString host) (if truthy text then text else JStr "")
    = Ret html ->
  exists div, _getElement host readOnly block this c = (Ret div, c').
Proof.
  intros Hc Hb Hne Hws Hk Ht Hp Htx Hh.
  destruct (align_class_token cur
              (currentAlignType_returns_canonical this cur c c' Hc))
    as [Hce Hcw].
  apply String.eqb_neq in Hne.
  unfold _getElement. unfold bind at 1. rewrite Hc.
  rewrite element_classes, Hb, Hne, Hws, Hce, Hcw.
  unfold bind, lift, ret. rewrite Hk, Ht, Hp, Htx, Hh. eauto.
Qed.

Lemma getElement_inv (host : Host) (readOnly block : JsVal) (this : t)
      (c c' : Console) (div : Div) :
  _getElement host readOnly block this c = (Ret div, c') ->
  exists cur tok key translated placeholder text html,
    currentAlignType this c = (Ret cur, c') /\
    to_string (numberToString host) block = Ret tok /\
    tok <> "" /\ has_ascii_ws tok = false /\
    get_prop (_config this) "placeholder" = Ret key /\
    api_i18n_t host (if truthy key then key else JStr "") = Ret translated /\
    to_string (numberToString host) translated = Ret placeholder /\
    get_prop (_data this) "text" = Ret text /\
    to_string (numberToString host) (if truthy text then text else JStr "")
      = Ret html.
Proof.
  unfold _getElement. unfold bind at 1.
  destruct (currentAlignType this c) as [[cur|e] c1] eqn:Hc; [|discriminate].
  rewrite element_classes.
  destruct (to_string (numberToString host) block) as [tok|e] eqn:Hb;
    [|unfold bind, lift; discriminate].
  destruct (tok =? "") eqn:Hne; [unfold bind, lift; discriminate|].
  destruct (has_ascii_ws tok) eqn:Hws; [unfold bind, lift; discriminate|].
  destruct (wrapperForAlignment cur =? ""); [unfold bind, lift; discriminate|].
  destruct (has_ascii_ws (wrapperForAlignment cur));
    [unfold bind, lift; discriminate|].
  unfold bind, lift, ret.
  destruct (get_prop (_config this) "placeholder") as [key|e] eqn:Hk;
    [|discriminate].
  destruct (api_i18n_t host (if truthy key then key else JStr ""))
    as [translated|e] eqn:Ht; [|discriminate].
  destruct (to_string (numberToString host) translated) as [placeholder|e]
    eqn:Hp; [|discriminate].
  destruct (get_prop (_data this) "text") as [text|e] eqn:Htx; [|discriminate].
  destruct (to_string (numberToString host)
                      (if truthy text then text else JStr ""))
    as [html|e] eqn:Hh; [|discriminate].
  intros H. injection H as _ <-.
  apply String.eqb_neq in Hne.
  exists cur, tok, key, translated, placeholder, text, html.
  repeat split; auto.
Qed.

Lemma constructor_run (host : Host) (readOnly config data : JsVal) (this : t)
      (c c' : Console) :
  constructor host readOnly config data c = (Ret this, c') ->
  exists d c1 block div,
    _normalizeData (mk (if truthy config then config else JObj []) JUndefined)
                   data c = (Ret d, c1) /\
    this = mk (if truthy config then config else JObj []) d /\
    api_styles_block host = Ret block /\
    _getElement host readOnly block this c1 = (Ret div, c').
Proof.
  unfold constructor.
  set (cfg := if truthy config then config else JObj []).
  unfold bind at 1.
  destruct (_normalizeData (mk cfg JUndefined) data c) as [[d|e] c1];
    [|discriminate].
  change (_config (mk cfg JUndefined)) with cfg.
  unfold bind at 1. unfold lift.
  destruct (api_styles_block host) as [block|e]; [|discriminate].
  unfold bind, ret.
  destruct (_getElement host readOnly block (mk cfg d) c1) as [[div|e] c2]
    eqn:Hg; [|discriminate].
  intros H; injection H as <- <-. exists d, c1, block, div. auto.
Qed.

Lemma constructor_returns (host : Host) (readOnly config data d : JsVal)
      (block : JsVal) (div : Div) (c c1 c' : Console) :
  _normalizeData (mk (if truthy config then config else JObj []) JUndefined)
                 data c = (Ret d, c1) ->
  api_styles_block host = Ret block ->
  _getElement host readOnly block
              (mk (if truthy config then config else JObj []) d) c1
    = (Ret div, c') ->
  constructor host readOnly config data c
    = (Ret (mk (if truthy config then config else JObj []) d), c').
Proof.
  intros Hn Hb Hg. unfold constructor.
  set (cfg := if truthy config then config else JObj []) in *.
  unfold bind at 1. rewrite Hn.
  change (_config (mk cfg JUndefined)) with cfg.
  unfold bind at 1. unfold lift. rewrite Hb.
  unfold bind, ret. rewrite Hg. reflexivity.
Qed.

(** X3: saved data is a fixed point of loading and saving.  When a block
    built from any data is saved, building a block from what was saved
    does not abort, stores the saved alignment, and saving it with the
    same content returns the same record. *)
Theorem save_reload_fixed_point
        (host : Host) (readOnly : JsVal)
        (config data : JsVal) (innerHTML : string) (this : t) (saved : JsVal)
        (c c1 c2 : Console) :
  constructor host readOnly config data c = (Ret this, c1) ->
  save this innerHTML c1 = (Ret saved, c2) ->
  exists this' c3 c4,
    constructor host readOnly config saved c2 = (Ret this', c3) /\
    get_prop (_data this') "align" = get_prop saved "align" /\
    save this' innerHTML c3 = (Ret saved, c4).
Proof.
  intros Hk Hs.
  destruct (constructor_run host readOnly config data this c c1 Hk)
    as [d [c0 [block [div [_ [Hthis [Hb Hg]]]]]]].
  destruct (getElement_inv host readOnly block this c0 c1 div Hg)
    as [cur0 [tok [key [tr [ph [text0 [html0
         [_ [Htok [Hne [Hws [Hkey [Htr [Hph _]]]]]]]]]]]]]].
  destruct (save_run this innerHTML saved c1 c2 Hs) as [cur [Hc ->]].
  set (cfg := if truthy config then config else JObj []) in *.
  assert (Hta : truthy (JStr cur) = true).
  { apply align_type_truthy, (currentAlignType_returns_canonical this cur c1 c2 Hc). }
  set (text' := if truthy (JStr innerHTML) then JStr innerHTML else JStr "").
  set (this' := mk cfg (JObj [("text", text'); ("align", JStr cur)])).
  assert (Hn : _normalizeData (mk cfg JUndefined)
                 (JObj [("text", JStr innerHTML); ("align", JStr cur)]) c2
               = (Ret (JObj [("text", text'); ("align", JStr cur)]), c2)).
  { rewrite (normalizeData_run (mk cfg JUndefined)
               (JObj [("text", JStr innerHTML); ("align", JStr cur)])
               (JStr innerHTML) (JStr cur) c2 eq_refl eq_refl eq_refl).
    rewrite Hta. reflexivity. }
  assert (Hcfg : _config this' = _config this) by (rewrite Hthis; reflexivity).
  destruct (currentAlignType_stable this this' text' cur c1 c2 Hc Hcfg eq_refl)
    as [w Hrun].
  assert (Hkey' : get_prop (_config this') "placeholder" = Ret key).
  { rewrite Hcfg. exact Hkey. }
  assert (Hhtml : exists html,
             to_string (numberToString host)
                       (if truthy text' then text' else JStr "") = Ret html).
  { unfold text'. destruct (truthy (JStr innerHTML)) eqn:Hti.
    - rewrite Hti. eexists; reflexivity.
    - eexists; reflexivity. }
  destruct Hhtml as [html Hhtml].
  destruct (getElement_run host readOnly block this' c2 (c2 ++ w) cur tok ph
              html key tr text' (Hrun c2) Htok Hne Hws Hkey' Htr Hph
              eq_refl Hhtml) as [div' Hg'].
  exists this', (c2 ++ w), ((c2 ++ w) ++ w).
  split; [|split].
  - apply (constructor_returns host readOnly config _ _ block div' c2 c2
             (c2 ++ w) Hn Hb Hg').
  - reflexivity.
  - unfold save, bind, ret. rewrite (Hrun (c2 ++ w)). reflexivity.
Qed.

(** X3 at [{alignTypes: ["right", "justify"]}] and data without an
    alignment, where what is saved is outside the allowed set. *)
Lemma save_reload_fixed_point_witness :
  exists this' c3 c4,
    constructor editor_host (JBool false) cfg_right_justify
                (JObj [("text", JStr "Hi"); ("align", JStr "left")]) []
      = (Ret this', c3) /\
    get_prop (_data this') "align"
      = get_prop (JObj [("text", JStr "Hi"); ("align", JStr "left")]) "align" /\
    save this' "Hi" c3
      = (Ret (JObj [("text", JStr "Hi"); ("align", JStr "left")]), c4).
Proof.
  apply (save_reload_fixed_point editor_host (JBool false)
           cfg_right_justify (JObj []) "Hi"
           block_right_justify
           (JObj [("text", JStr "Hi"); ("align", JStr "left")]) [] [] []);
    reflexivity.
Defined.

(** X4: whatever [save] returns is a record of the content and of a
    canonical alignment, under any configuration and stored data. *)
Theorem saved_record_shape
        (this : t) (innerHTML : string) (saved : JsVal) (c c' : Console) :
  save this innerHTML c = (Ret saved, c') ->
  exists cur,
    saved = JObj [("text", JStr innerHTML); ("align", JStr cur)] /\
    In cur ["left"; "center"; "right"; "justify"].
Proof.
  intros Hs. destruct (save_run this innerHTML saved c c' Hs) as [cur [Hc ->]].
  exists cur. split; [reflexivity|].
  apply (currentAlignType_returns_canonical this cur c c' Hc).
Qed.

(** X4 at a block whose stored alignment is not a string. *)
Lemma saved_record_shape_witness :
  exists cur,
    JObj [("text", JStr "<b>Hi</b>"); ("align", JStr "left")]
      = JObj [("text", JStr "<b>Hi</b>"); ("align", JStr cur)] /\
    In cur ["left"; "center"; "right"; "justify"].
Proof.
  apply (saved_record_shape (mk cfg_left_right (JObj [("align", JNum 3)]))
           "<b>Hi</b>"
           (JObj [("text", JStr "<b>Hi</b>"); ("align", JStr "left")]) [] []).
  reflexivity.
Defined.

(* ================================================================= *)
(** ** Beyond the claims: when construction aborts *)

Lemma normalizeData_returns (this : t) (avail : list string) (data : JsVal)
      (c : Console) :
  availableAlignTypes this = Ret avail ->
  data <> JNull ->
  exists n c', _normalizeData this data c = (Ret n, c').
Proof.
  intros Ha Hnull.
  destruct (userDefault_appends this avail Ha) as [dflt [w Hd]].
  destruct (String.eqb_spec (typeof data) "object") as [Hty|Hty].
  - assert (Hrd : exists rt ra, get_prop data "text" = Ret rt /\
                                get_prop data "align" = Ret ra).
    { destruct data; try discriminate; try contradiction; simpl.
      - eauto.
      - destruct (own_prop "text" fields), (own_prop "align" fields); eauto. }
    destruct Hrd as [rt [ra [Hrt Hra]]].
    rewrite (normalizeData_run this data rt ra c Hty Hrt Hra).
    destruct (truthy ra); [eauto|]. rewrite (Hd c). eauto.
  - rewrite (normalizeData_non_object this data c Hty), (Hd c). eauto.
Qed.

Lemma normalizeData_text (this : t) (data n : JsVal) (c c' : Console) :
  _normalizeData this data c = (Ret n, c') ->
  exists text align,
    n = JObj [("text", text); ("align", align)] /\
    (typeof data = "object" ->
     forall rawText, get_prop data "text" = Ret rawText ->
                     text = if truthy rawText then rawText else JStr "") /\
    (typeof data <> "object" -> text = JStr "").
Proof.
  intros Hn.
  destruct (String.eqb_spec (typeof data) "object") as [Hty|Hty].
  - assert (Hrd : exists rt ra, get_prop data "text" = Ret rt /\
                                get_prop data "align" = Ret ra).
    { destruct data; try discriminate; simpl.
      - eauto.
      - destruct (own_prop "text" fields), (own_prop "align" fields); eauto. }
    destruct Hrd as [rt [ra [Hrt Hra]]].
    rewrite (normalizeData_run this data rt ra c Hty Hrt Hra) in Hn.
    assert (Hsh : exists align,
               n = JObj [("text", if truthy rt then rt else JStr "");
                         ("align", align)]).
    { destruct (truthy ra).
      - injection Hn as <- _. eauto.
      - destruct (userDefaultAlignType this c) as [[dflt|e] c1];
          [|discriminate].
        injection Hn as <- _. eauto. }
    destruct Hsh as [align ->]. eexists _, _. split; [reflexivity|].
    split; [|contradiction].
    intros _ rawText Hraw. rewrite Hrt in Hraw. injection Hraw as <-.
    reflexivity.
  - rewrite (normalizeData_non_object this data c Hty) in Hn.
    destruct (userDefaultAlignType this c) as [[dflt|e] c1]; [|discriminate].
    injection Hn as <- _. eexists _, _. split; [reflexivity|].
    split; [contradiction | reflexivity].
Qed.

(** X5: the constructor returns a block exactly when the data is not
    [null], the configured [alignTypes] is absent or falsy, an array or a
    string, the host serves the element, and the text of the data, if
    truthy, converts to a string; in every other case it aborts. *)
Theorem constructor_returns_iff
        (host : Host) (readOnly config data : JsVal) (c : Console) :
  (exists this c', constructor host readOnly config data c = (Ret this, c')) <->
  (data <> JNull /\
   alignTypes_ok (mk (if truthy config then config else JObj []) JUndefined) /\
   host_usable host (if truthy config then config else JObj []) /\
   text_convertible host data).
Proof.
  set (cfg := if truthy config then config else JObj []).
  split.
  - intros [this [c' Hk]].
    destruct (constructor_run host readOnly config data this c c' Hk)
      as [d [c1 [block [div [Hn [Hthis [Hb Hg]]]]]]].
    fold cfg in Hn, Hthis.
    destruct (getElement_inv host readOnly block this c1 c' div Hg)
      as [cur [tok [key [tr [ph [text [html
           [Hc [Htok [Hne [Hws [Hkey [Htr [Hph [Htx Hh]]]]]]]]]]]]]]].
    split; [|split; [|split]].
    + intros ->. rewrite normalizeData_null_raises in Hn. discriminate.
    + apply available_defined_iff.
      destruct (currentAlignType_available this cur c1 c' Hc) as [avail Ha].
      exists avail. rewrite Hthis in Ha. exact Ha.
    + rewrite Hthis in Hkey. split.
      * exists block, tok. auto.
      * exists key, tr, ph. auto.
    + intros Hty rawText Hraw Htruthy.
      destruct (normalizeData_text _ _ _ _ _ Hn) as [text' [align [-> [Hobj _]]]].
      rewrite Hthis in Htx. cbn [_data get_prop own_prop] in Htx.
      simpl in Htx. injection Htx as <-.
      rewrite (Hobj Hty rawText Hraw), Htruthy, Htruthy in Hh.
      exists html. exact Hh.
  - intros [Hnull [Hok [[[block [tok [Hb [Htok [Hne Hws]]]]]
                         [key [tr [ph [Hkey [Htr Hph]]]]]] Htext]]].
    apply available_defined_iff in Hok. destruct Hok as [avail Ha].
    destruct (normalizeData_returns (mk cfg JUndefined) avail data c Ha Hnull)
      as [n [c1 Hn]].
    destruct (normalizeData_text _ _ _ _ _ Hn) as [text [align [-> [Hobj Hnon]]]].
    set (this1 := mk cfg (JObj [("text", text); ("align", align)])).
    destruct (currentAlignType_appends this1 avail align Ha
                (normalized_align_readable text align)) as [cur [w [_ Hcur]]].
    assert (Hhtml : exists html,
               to_string (numberToString host)
                         (if truthy text then text else JStr "") = Ret html).
    { destruct (String.eqb_spec (typeof data) "object") as [Hty|Hty].
      - assert (Hrd : exists rt, get_prop data "text" = Ret rt).
        { destruct data; try discriminate; try contradiction; simpl.
          - eauto.
          - destruct (own_prop "text" fields); eauto. }
        destruct Hrd as [rt Hrt]. rewrite (Hobj Hty rt Hrt).
        destruct (truthy rt) eqn:Htr'.
        + rewrite Htr'. apply (Htext Hty rt Hrt Htr').
        + eexists; reflexivity.
      - rewrite (Hnon Hty). eexists; reflexivity. }
    destruct Hhtml as [html Hhtml].
    destruct (getElement_run host readOnly block this1 c1 (c1 ++ w) cur tok ph
                html key tr text (Hcur c1) Htok Hne Hws Hkey Htr Hph
                eq_refl Hhtml) as [div Hg].
    exists this1, (c1 ++ w).
    apply (constructor_returns host readOnly config data _ block div c c1
             (c1 ++ w) Hn Hb Hg).
Qed.

(** X5 at the data [null], at a text object that hides [toString], and at
    a configuration whose [alignTypes] is an object. *)
Lemma constructor_returns_iff_witness :
  ~ (exists this c',
        constructor editor_host (JBool false) JUndefined JNull []
          = (Ret this, c')) /\
  ~ (exists this c',
        constructor editor_host (JBool false) JUndefined
                    (JObj [("text", JObj [("toString", JNum 1)])]) []
          = (Ret this, c')) /\
  ~ (exists this c',
        constructor editor_host (JBool false)
                    (JObj [("alignTypes", JObj [("left", JBool true)])])
                    (JObj []) [] = (Ret this, c')).
Proof.
  split; [|split]; intros H.
  - apply (proj1 (constructor_returns_iff editor_host (JBool false)
                    JUndefined JNull [])) in H.
    destruct H as [H _]. apply H. reflexivity.
  - apply (proj1 (constructor_returns_iff editor_host (JBool false) JUndefined
                    (JObj [("text", JObj [("toString", JNum 1)])]) [])) in H.
    destruct H as [_ [_ [_ H]]].
    destruct (H eq_refl (JObj [("toString", JNum 1)]) eq_refl eq_refl)
      as [s Hs].
    discriminate.
  - apply (proj1 (constructor_returns_iff editor_host (JBool false)
                    (JObj [("alignTypes", JObj [("left", JBool true)])])
                    (JObj []) [])) in H.
    destruct H as [_ [[v [Hv Hcase]] _]].
    simpl in Hv. injection Hv as <-.
    destruct Hcase as [Hf|[[l Hl]|[s Hs]]]; discriminate.
Defined.

(* ================================================================= *)
(** ** Beyond the claims: the allowed set *)

Lemma subseq_NoDup {A : Type} (l1 l2 : list A) :
  subseq l1 l2 -> NoDup l2 -> NoDup l1.
Proof.
  induction 1; intros Hnd.
  - constructor.
  - inversion Hnd; subst. auto.
  - inversion Hnd as [|x l Hout Hnd']; subst. constructor; [|auto].
    intros Hin. apply Hout. eapply subseq_In; eauto.
Qed.

Lemma ALIGN_TYPES_NoDup : NoDup ALIGN_TYPES.
Proof.
  unfold ALIGN_TYPES.
  repeat constructor; simpl; intuition discriminate.
Qed.

Lemma existsb_map_JStr (a : string) (l : list string) :
  existsb (strict_eq_str a) (map JStr l) = true <-> In a l.
Proof.
  rewrite existsb_strict_eq, in_map_iff. split.
  - intros [x [Hx Hin]]. injection Hx as ->. assumption.
  - intros Hin. exists a. auto.
Qed.

Lemma filter_by_subseq (l1 l2 : list string) :
  subseq l1 l2 -> NoDup l2 ->
  filter (fun a => existsb (strict_eq_str a) (map JStr l1)) l2 = l1.
Proof.
  induction 1 as [|a l1 l2 Hsub IH|a l1 l2 Hsub IH]; intros Hnd.
  - reflexivity.
  - inversion Hnd as [|x l Hout Hnd']; subst. simpl.
    destruct (existsb (strict_eq_str a) (map JStr l1)) eqn:He.
    + apply existsb_map_JStr in He. exfalso. apply Hout.
      eapply subseq_In; eauto.
    + apply IH, Hnd'.
  - inversion Hnd as [|x l Hout Hnd']; subst.
    cbn [filter map existsb strict_eq_str]. rewrite String.eqb_refl.
    cbn [orb]. f_equal.
    transitivity (filter (fun x => existsb (strict_eq_str x) (map JStr l1)) l2);
      [|apply IH, Hnd'].
    apply filter_ext_in. intros x Hx.
    destruct (String.eqb_spec x a) as [->|Hne]; [contradiction | reflexivity].
Qed.

(** X6: the allowed set depends on the configured array only through the
    canonical types it holds: order, repetition and any other element
    make no difference. *)
Theorem allowed_set_extensional
        (this1 this2 : t) (elems1 elems2 : list JsVal) :
  get_prop (_config this1) "alignTypes" = Ret (JArr elems1) ->
  get_prop (_config this2) "alignTypes" = Ret (JArr elems2) ->
  (forall s, In s ALIGN_TYPES -> (In (JStr s) elems1 <-> In (JStr s) elems2)) ->
  availableAlignTypes this1 = availableAlignTypes this2.
Proof.
  intros H1 H2 Hsame. unfold availableAlignTypes. rewrite H1, H2.
  cbn [truthy includes].
  rewrite (js_filter_pure (fun a => existsb (strict_eq_str a) elems1)).
  rewrite (js_filter_pure (fun a => existsb (strict_eq_str a) elems2)).
  f_equal. apply filter_ext_in. intros a Ha.
  destruct (existsb (strict_eq_str a) elems1) eqn:E1;
    destruct (existsb (strict_eq_str a) elems2) eqn:E2; try reflexivity.
  - apply existsb_strict_eq, (Hsame a Ha), existsb_strict_eq in E1. congruence.
  - apply existsb_strict_eq, (Hsame a Ha), existsb_strict_eq in E2. congruence.
Qed.

(** X6 at [["right", "left", "right", 7]] and [["left", "right"]]. *)
Lemma allowed_set_extensional_witness :
  availableAlignTypes
    (mk (JObj [("alignTypes",
                JArr [JStr "right"; JStr "left"; JStr "right"; JNum 7])])
        JUndefined)
  = availableAlignTypes (mk cfg_left_right JUndefined).
Proof.
  apply (allowed_set_extensional
           (mk (JObj [("alignTypes",
                       JArr [JStr "right"; JStr "left"; JStr "right"; JNum 7])])
               JUndefined)
           (mk cfg_left_right JUndefined)
           [JStr "right"; JStr "left"; JStr "right"; JNum 7]
           [JStr "left"; JStr "right"] eq_refl eq_refl).
  intros s _. simpl. split.
  - intros [H|[H|[H|[H|[]]]]]; try discriminate; auto.
  - intros [H|[H|[]]]; auto.
Defined.

(** X7: the allowed set has no repetition, and it is a normal form of the
    configuration: configured as [alignTypes], it is the allowed set
    again. *)
Theorem allowed_set_normal_form (this : t) (avail : list string) (d : JsVal) :
  availableAlignTypes this = Ret avail ->
  NoDup avail /\
  availableAlignTypes (mk (JObj [("alignTypes", JArr (map JStr avail))]) d)
    = Ret avail.
Proof.
  intros Ha. pose proof (available_subseq this avail Ha) as Hsub.
  split; [apply (subseq_NoDup _ _ Hsub ALIGN_TYPES_NoDup)|].
  unfold availableAlignTypes. cbn [_config get_prop own_prop].
  rewrite String.eqb_refl. cbn [truthy includes].
  rewrite (js_filter_pure (fun a => existsb (strict_eq_str a) (map JStr avail))).
  f_equal. apply (filter_by_subseq _ _ Hsub ALIGN_TYPES_NoDup).
Qed.

(** X7 at [{alignTypes: "justify, center"}], a string. *)
Lemma allowed_set_normal_form_witness :
  NoDup ["center"; "justify"] /\
  availableAlignTypes
    (mk (JObj [("alignTypes", JArr (map JStr ["center"; "justify"]))]) JUndefined)
    = Ret ["center"; "justify"].
Proof.
  apply (allowed_set_normal_form
           (mk (JObj [("alignTypes", JStr "justify, center")]) JUndefined)
           ["center"; "justify"] JUndefined).
  reflexivity.
Defined.

Lemma prefix_iff (s t : string) :
  prefix s t = true <-> exists post, t = (s ++ post)%string.
Proof.
  revert s. induction t as [|b t' IH]; intros [|a s']; simpl.
  - split; [intros _; exists ""; reflexivity | reflexivity].
  - split; [discriminate | intros [post Hp]; discriminate].
  - split; [intros _; eexists; reflexivity | reflexivity].
  - destruct (ascii_dec a b) as [->|Hne].
    + rewrite IH. split; intros [post Hp]; exists post.
      * rewrite Hp; reflexivity.
      * injection Hp as ->. reflexivity.
    + split; [discriminate|]. intros [post Hp]. injection Hp as -> _.
      contradiction.
Qed.

Lemma str_includes_iff (s t : string) :
  str_includes s t = true <-> exists pre post, t = (pre ++ s ++ post)%string.
Proof.
  induction t as [|b t' IH]; cbn [str_includes].
  - rewrite orb_false_r, prefix_iff. split.
    + intros [post Hp]. exists "", post. assumption.
    + intros [pre [post Hp]]. destruct pre; [|discriminate].
      exists post. assumption.
  - rewrite orb_true_iff, prefix_iff, IH. split.
    + intros [[post Hp]|[pre [post Hp]]].
      * exists "", post. assumption.
      * exists (String b pre), post. simpl. rewrite Hp. reflexivity.
    + intros [pre [post Hp]]. destruct pre as [|a pre'].
      * left. exists post. assumption.
      * right. simpl in Hp. injection Hp as _ ->. eauto.
Qed.

(** X8: a string is accepted as [alignTypes].  When it is not empty, the
    allowed set holds the canonical types whose name occurs in the string,
    in canonical order; the empty string counts as absent. *)
Theorem allowed_set_of_string (this : t) (names : string) :
  get_prop (_config this) "alignTypes" = Ret (JStr names) ->
  exists avail,
    availableAlignTypes this = Ret avail /\
    subseq avail ALIGN_TYPES /\
    (names = "" -> avail = ALIGN_TYPES) /\
    (names <> "" ->
     forall s, In s avail <->
               In s ALIGN_TYPES /\
               exists pre post, names = (pre ++ s ++ post)%string).
Proof.
  intros Hat.
  assert (Hok : alignTypes_ok this).
  { exists (JStr names). split; [assumption|]. right; right; eauto. }
  apply available_defined_iff in Hok. destruct Hok as [avail Ha].
  exists avail. split; [assumption|].
  split; [apply (available_subseq this avail Ha)|]. split.
  - intros ->. unfold availableAlignTypes in Ha. rewrite Hat in Ha.
    simpl in Ha. injection Ha as <-. reflexivity.
  - intros Hne s.
    rewrite (available_In this avail (JStr names) s Ha Hat).
    assert (Ht : truthy (JStr names) = true).
    { simpl. destruct (String.eqb_spec names ""); [contradiction | reflexivity]. }
    cbn [includes]. split.
    + intros [Hc Hinc]. split; [assumption|].
      apply str_includes_iff. specialize (Hinc Ht). injection Hinc as ->.
      reflexivity.
    + intros [Hc Hsub]. split; [assumption|]. intros _. f_equal.
      apply str_includes_iff, Hsub.
Qed.

(** X8 at [{alignTypes: "leftover"}]. *)
Lemma allowed_set_of_string_witness :
  exists avail,
    availableAlignTypes (mk (JObj [("alignTypes", JStr "leftover")]) JUndefined)
      = Ret avail /\
    subseq avail ALIGN_TYPES /\
    ("leftover" = "" -> avail = ALIGN_TYPES) /\
    ("leftover" <> "" ->
     forall s, In s avail <->
               In s ALIGN_TYPES /\
               exists pre post, "leftover" = (pre ++ s ++ post)%string).
Proof.
  apply (allowed_set_of_string
           (mk (JObj [("alignTypes", JStr "leftover")]) JUndefined) "leftover").
  reflexivity.
Defined.

(* ================================================================= *)
(** ** Beyond the claims: activating an alignment *)

Lemma wrapperForAlignment_inj (a b : string) :
  wrapperForAlignment a = wrapperForAlignment b -> a = b.
Proof. unfold wrapperForAlignment. simpl. intros H. injection H as ->. reflexivity. Qed.

Lemma classList_remove_In (cl : list string) (token tok : string) :
  In tok (Rendered.classList_remove cl token) <-> In tok cl /\ tok <> token.
Proof.
  unfold Rendered.classList_remove. rewrite filter_In.
  destruct (String.eqb_spec tok token); simpl; intuition congruence.
Qed.

Lemma classList_add_In (cl : list string) (token tok : string) :
  In tok (Rendered.classList_add cl token) <-> In tok cl \/ tok = token.
Proof.
  unfold Rendered.classList_add.
  destruct (existsb (fun x => x =? token) cl) eqn:He.
  - apply existsb_exists in He. destruct He as [x [Hin Hx]].
    apply String.eqb_eq in Hx. rewrite Hx in Hin.
    split; [auto|]. intros [H|H]; [assumption | rewrite H; assumption].
  - rewrite in_app_iff. simpl. intuition congruence.
Qed.

Lemma classList_remove_NoDup (cl : list string) (token : string) :
  NoDup cl -> NoDup (Rendered.classList_remove cl token).
Proof. apply NoDup_filter. Qed.

Lemma classList_add_NoDup (cl : list string) (token : string) :
  NoDup cl -> NoDup (Rendered.classList_add cl token).
Proof.
  intros Hnd. unfold Rendered.classList_add.
  destruct (existsb (fun x => x =? token) cl) eqn:He; [assumption|].
  apply NoDup_app; [assumption | repeat constructor; intros [] |].
  intros x Hin [Heq|[]]. rewrite <- Heq in Hin.
  assert (Ht : existsb (fun y => y =? token) cl = true).
  { apply existsb_exists. exists token.
    split; [assumption | apply String.eqb_refl]. }
  congruence.
Qed.

Lemma strict_eq_str_iff (s : string) (v : JsVal) :
  strict_eq_str s v = true <-> v = JStr s.
Proof.
  destruct v; simpl; try (split; [discriminate | intros H; discriminate]).
  rewrite String.eqb_eq. split; [intros ->; reflexivity|].
  intros H; injection H as ->. reflexivity.
Qed.

(** The loop of [_setAlignType] over a list of alignment types. *)
Lemma align_classes_other (newAlign : JsVal) (l : list string)
      (cl : list string) (tok : string) :
  (forall x, In x l -> tok <> wrapperForAlignment x) ->
  (In tok
      (fold_left
         (fun cl align =>
            let alignClass := wrapperForAlignment align in
            let cl' := Rendered.classList_remove cl alignClass in
            if strict_eq_str align newAlign
            then Rendered.classList_add cl' alignClass else cl')
         l cl)
   <-> In tok cl).
Proof.
  revert cl. induction l as [|a rest IH]; intros cl Hother; simpl; [tauto|].
  rewrite IH by (intros x Hx; apply Hother; right; assumption).
  assert (Ha : tok <> wrapperForAlignment a) by (apply Hother; left; reflexivity).
  destruct (strict_eq_str a newAlign).
  - rewrite classList_add_In, classList_remove_In. tauto.
  - rewrite classList_remove_In. tauto.
Qed.

Lemma align_classes_own (newAlign : JsVal) (l : list string)
      (cl : list string) (x : string) :
  NoDup l -> In x l ->
  (In (wrapperForAlignment x)
      (fold_left
         (fun cl align =>
            let alignClass := wrapperForAlignment align in
            let cl' := Rendered.classList_remove cl alignClass in
            if strict_eq_str align newAlign
            then Rendered.classList_add cl' alignClass else cl')
         l cl)
   <-> newAlign = JStr x).
Proof.
  revert cl. induction l as [|a rest IH]; intros cl Hnd Hin; [destruct Hin|].
  inversion Hnd as [|a' l' Hout Hnd']; subst. simpl.
  destruct Hin as [->|Hin].
  - rewrite align_classes_other.
    + destruct (strict_eq_str x newAlign) eqn:He.
      * rewrite classList_add_In. apply strict_eq_str_iff in He. tauto.
      * rewrite classList_remove_In. split; [tauto|].
        intros Hn. apply strict_eq_str_iff in Hn. congruence.
    + intros y Hy Heq. apply wrapperForAlignment_inj in Heq. subst y.
      contradiction.
  - apply IH; assumption.
Qed.

Lemma align_classes_NoDup (newAlign : JsVal) (l : list string)
      (cl : list string) :
  NoDup cl ->
  NoDup
    (fold_left
       (fun cl align =>
          let alignClass := wrapperForAlignment align in
          let cl' := Rendered.classList_remove cl alignClass in
          if strict_eq_str align newAlign
          then Rendered.classList_add cl' alignClass else cl')
       l cl).
Proof.
  revert cl. induction l as [|a rest IH]; intros cl Hnd; simpl; [assumption|].
  apply IH. destruct (strict_eq_str a newAlign).
  - apply classList_add_NoDup, classList_remove_NoDup, Hnd.
  - apply classList_remove_NoDup, Hnd.
Qed.

Lemma own_prop_written (k : string) (v : JsVal) (fs : list (string * JsVal)) :
  own_prop k (fs ++ [(k, v)]) = Some v.
Proof.
  induction fs as [|[k' w] rest IH]; simpl.
  - rewrite String.eqb_refl. reflexivity.
  - rewrite IH. reflexivity.
Qed.

Lemma own_prop_other (k k0 : string) (v : JsVal) (fs : list (string * JsVal)) :
  k <> k0 -> own_prop k (fs ++ [(k0, v)]) = own_prop k fs.
Proof.
  intros Hne. induction fs as [|[k' w] rest IH]; simpl.
  - destruct (String.eqb_spec k k0); [contradiction | reflexivity].
  - rewrite IH. reflexivity.
Qed.

(** X9: [_setAlignType] leaves the element with the alignment class of
    the new alignment and of no other canonical type, whatever classes it
    had; every other class is kept, and no class is repeated.  In the
    data only the alignment changes. *)
Theorem setAlignType_effect (r : Rendered.t) (newAlign : JsVal) :
  (forall x, In x ALIGN_TYPES ->
     (In (wrapperForAlignment x)
         (Rendered.classList
            (Rendered._element (Rendered._setAlignType r newAlign)))
      <-> newAlign = JStr x)) /\
  (forall tok,
     (forall x, In x ALIGN_TYPES -> tok <> wrapperForAlignment x) ->
     (In tok (Rendered.classList
                (Rendered._element (Rendered._setAlignType r newAlign)))
      <-> In tok (Rendered.classList (Rendered._element r)))) /\
  (NoDup (Rendered.classList (Rendered._element r)) ->
   NoDup (Rendered.classList
            (Rendered._element (Rendered._setAlignType r newAlign)))) /\
  own_prop "align" (Rendered._data (Rendered._setAlignType r newAlign))
    = Some newAlign /\
  (forall k, k <> "align" ->
     own_prop k (Rendered._data (Rendered._setAlignType r newAlign))
     = own_prop k (Rendered._data r)) /\
  Rendered._config (Rendered._setAlignType r newAlign) = Rendered._config r.
Proof.
  unfold Rendered._setAlignType. cbn [Rendered._element Rendered.classList
                                      Rendered._data Rendered._config].
  repeat split.
  - apply (align_classes_own newAlign ALIGN_TYPES _ x ALIGN_TYPES_NoDup H).
  - apply (align_classes_own newAlign ALIGN_TYPES _ x ALIGN_TYPES_NoDup H).
  - apply (align_classes_other newAlign ALIGN_TYPES _ tok H).
  - apply (align_classes_other newAlign ALIGN_TYPES _ tok H).
  - apply align_classes_NoDup.
  - apply own_prop_written.
  - intros k Hk. apply own_prop_other, Hk.
Qed.

(** X9 at an element aligned to the left, set to ["right"]. *)
Lemma setAlignType_effect_witness :
  NoDup (Rendered.classList
           (Rendered._element
              (Rendered._setAlignType
                 (Rendered.mk (JObj [])
                    [("text", JStr "Hi"); ("align", JStr "left")]
                    (Rendered.mkElement
                       ["ce-paragraph"; "cdx-block"; "ce-paragraph-align-left"]))
                 (JStr "right")))).
Proof.
  apply (proj1 (proj2 (proj2 (setAlignType_effect
           (Rendered.mk (JObj [])
              [("text", JStr "Hi"); ("align", JStr "left")]
              (Rendered.mkElement
                 ["ce-paragraph"; "cdx-block"; "ce-paragraph-align-left"]))
           (JStr "right"))))).
  simpl. repeat constructor; simpl; intuition discriminate.
Defined.

(** X10: after [_setAlignType] with a canonical type, the element shows
    that type, while the current alignment, which is what [save] stores,
    is that type only when the allowed set holds it, and the effective
    default otherwise; the element shows the current alignment exactly
    when the two are equal. *)
Theorem activation_shown_and_saved
        (r : Rendered.t) (avail : list string) (a : string) (c : Console) :
  availableAlignTypes (Rendered.instance r) = Ret avail ->
  In a ALIGN_TYPES ->
  exists cur c',
    currentAlignType
      (Rendered.instance (Rendered._setAlignType r (JStr a))) c = (Ret cur, c') /\
    In (wrapperForAlignment a)
       (Rendered.classList
          (Rendered._element (Rendered._setAlignType r (JStr a)))) /\
    (In a avail -> cur = a /\ c' = c) /\
    (~ In a avail ->
     userDefaultAlignType (Rendered.instance r) c = (Ret cur, c')) /\
    (In (wrapperForAlignment cur)
        (Rendered.classList
           (Rendered._element (Rendered._setAlignType r (JStr a))))
     <-> cur = a).
Proof.
  intros Ha Hcanon.
  set (r' := Rendered._setAlignType r (JStr a)).
  assert (Ha' : availableAlignTypes (Rendered.instance r') = Ret avail) by exact Ha.
  assert (Hs' : get_prop (_data (Rendered.instance r')) "align" = Ret (JStr a)).
  { unfold r', Rendered.instance, Rendered._setAlignType.
    cbn [_data Rendered._data get_prop]. rewrite own_prop_written. reflexivity. }
  assert (Hd' : forall c0, userDefaultAlignType (Rendered.instance r') c0
                           = userDefaultAlignType (Rendered.instance r) c0)
    by reflexivity.
  assert (Hshown : In (wrapperForAlignment a)
                      (Rendered.classList (Rendered._element r'))).
  { apply (align_classes_own (JStr a) ALIGN_TYPES _ a ALIGN_TYPES_NoDup Hcanon).
    reflexivity. }
  assert (Hiff : forall cur, In cur ALIGN_TYPES ->
                   (In (wrapperForAlignment cur)
                       (Rendered.classList (Rendered._element r')) <-> cur = a)).
  { intros cur Hcur.
    unfold r', Rendered._setAlignType.
    cbn [Rendered._element Rendered.classList].
    rewrite (align_classes_own (JStr a) ALIGN_TYPES _ cur ALIGN_TYPES_NoDup Hcur).
    split; [intros H; injection H as ->; reflexivity | intros ->; reflexivity]. }
  destruct (in_dec string_dec a avail) as [Hin|Hout].
  - exists a, c. split; [|split; [assumption|split; [auto|split; [tauto|]]]].
    + rewrite (currentAlignType_run _ avail (JStr a) c Ha' Hs').
      rewrite (find_string_member avail a Hin). reflexivity.
    + apply Hiff, Hcanon.
  - destruct (userDefault_appends (Rendered.instance r) avail Ha) as [d [w Hrun]].
    exists d, (c ++ w).
    split; [|split; [assumption|split; [tauto|split; [intros _; apply Hrun|]]]].
    + rewrite (currentAlignType_run _ avail (JStr a) c Ha' Hs').
      rewrite (find_string_absent avail (JStr a)).
      * rewrite Hd'. apply Hrun.
      * intros s Hs Hin. injection Hs as <-. contradiction.
    + apply Hiff.
      apply (userDefault_canonical (Rendered.instance r) avail d c (c ++ w) Ha
               (Hrun c)).
Qed.

(** X10 at [{alignTypes: ["left", "right"]}], activating ["center"]: the
    element is centred and what is saved is ["left"]. *)
Lemma activation_shown_and_saved_witness :
  exists cur c',
    currentAlignType
      (Rendered.instance
         (Rendered._setAlignType
            (Rendered.mk cfg_left_right
               [("text", JStr "Hi"); ("align", JStr "left")]
               (Rendered.mkElement ["ce-paragraph"; "ce-paragraph-align-left"]))
            (JStr "center"))) [] = (Ret cur, c') /\
    In (wrapperForAlignment "center")
       (Rendered.classList
          (Rendered._element
             (Rendered._setAlignType
                (Rendered.mk cfg_left_right
                   [("text", JStr "Hi"); ("align", JStr "left")]
                   (Rendered.mkElement ["ce-paragraph"; "ce-paragraph-align-left"]))
                (JStr "center")))) /\
    (In "center" ["left"; "right"] -> cur = "center" /\ c' = []) /\
    (~ In "center" ["left"; "right"] ->
     userDefaultAlignType
       (Rendered.instance
          (Rendered.mk cfg_left_right
             [("text", JStr "Hi"); ("align", JStr "left")]
             (Rendered.mkElement ["ce-paragraph"; "ce-paragraph-align-left"])))
       [] = (Ret cur, c')) /\
    (In (wrapperForAlignment cur)
        (Rendered.classList
           (Rendered._element
              (Rendered._setAlignType
                 (Rendered.mk cfg_left_right
                    [("text", JStr "Hi"); ("align", JStr "left")]
                    (Rendered.mkElement ["ce-paragraph"; "ce-paragraph-align-left"]))
                 (JStr "center"))))
     <-> cur = "center").
Proof.
  apply (activation_shown_and_saved
           (Rendered.mk cfg_left_right
              [("text", JStr "Hi"); ("align", JStr "left")]
              (Rendered.mkElement ["ce-paragraph"; "ce-paragraph-align-left"]))
           ["left"; "right"] "center" [] eq_refl).
  simpl; auto.
Defined.

(* ================================================================= *)
(** ** Beyond the claims: paste and merge *)

(** X11: [onPaste] returns whenever the current alignment can be read; it
    then stores the pasted content as it is together with the current
    alignment, writes to the console only what that read wrote, and leaves
    the current alignment what it was. *)
Theorem paste_keeps_alignment
        (this : t) (innerHTML cur : string) (c c' : Console) :
  currentAlignType this c = (Ret cur, c') ->
  onPaste this innerHTML c
    = (Ret (mk (_config this)
               (JObj [("text", JStr innerHTML); ("align", JStr cur)])), c') /\
  exists w, forall c2,
    currentAlignType
      (mk (_config this) (JObj [("text", JStr innerHTML); ("align", JStr cur)]))
      c2 = (Ret cur, c2 ++ w).
Proof.
  intros Hc.
  assert (Hta : truthy (JStr cur) = true).
  { apply align_type_truthy, (currentAlignType_returns_canonical this cur c c' Hc). }
  split.
  - unfold onPaste. unfold bind at 1. rewrite Hc.
    unfold bind at 1.
    rewrite (normalizeData_run this
               (JObj [("text", JStr innerHTML); ("align", JStr cur)])
               (JStr innerHTML) (JStr cur) c' eq_refl eq_refl eq_refl).
    rewrite Hta. unfold ret.
    destruct innerHTML; reflexivity.
  - apply (currentAlignType_stable this _ (JStr innerHTML) cur c c' Hc);
      reflexivity.
Qed.

(** X11 at the block of [{alignTypes: ["right", "justify"]}] whose
    current alignment is the default outside the allowed set. *)
Lemma paste_keeps_alignment_witness :
  onPaste block_right_justify "<i>new</i>" []
    = (Ret (mk (_config block_right_justify)
               (JObj [("text", JStr "<i>new</i>"); ("align", JStr "left")])), []) /\
  exists w, forall c2,
    currentAlignType
      (mk (_config block_right_justify)
          (JObj [("text", JStr "<i>new</i>"); ("align", JStr "left")]))
      c2 = (Ret "left", c2 ++ w).
Proof.
  apply (paste_keeps_alignment block_right_justify "<i>new</i>" "left" [] []).
  reflexivity.
Defined.

Lemma append_empty (s1 s2 : string) :
  (s1 ++ s2)%string = "" -> s1 = "" /\ s2 = "".
Proof. destruct s1; simpl; [auto | discriminate]. Qed.

(** X12: [merge] appends the text of the merged data, converted to a
    string, to the content of the element; the fallback to the empty
    string never changes what is assigned.  Data without a text makes it
    append ["undefined"]; [null] or [undefined] data makes it raise. *)
Theorem merge_appends
        (numberToString : Z -> string) (innerHTML : string) (data : JsVal) :
  (forall text s,
      get_prop data "text" = Ret text ->
      to_string numberToString text = Ret s ->
      merge numberToString innerHTML data = Ret (innerHTML ++ s)%string) /\
  (forall s,
      get_prop data "text" = Ret (JStr s) ->
      merge numberToString innerHTML data = Ret (innerHTML ++ s)%string) /\
  (get_prop data "text" = Ret JUndefined ->
   merge numberToString innerHTML data
     = Ret (innerHTML ++ "undefined")%string) /\
  (data = JNull \/ data = JUndefined ->
   merge numberToString innerHTML data = Throw TypeError).
Proof.
  assert (Hgen : forall text s,
             get_prop data "text" = Ret text ->
             to_string numberToString text = Ret s ->
             merge numberToString innerHTML data = Ret (innerHTML ++ s)%string).
  { intros text s Ht Hs. unfold merge. rewrite Ht, Hs. f_equal.
    cbn [truthy].
    destruct (String.eqb_spec (innerHTML ++ s)%string "") as [He|Hne];
      [rewrite He|]; reflexivity. }
  split; [exact Hgen|]. split; [|split].
  - intros s Ht. apply (Hgen (JStr s) s Ht). reflexivity.
  - intros Ht. apply (Hgen JUndefined "undefined" Ht). reflexivity.
  - intros [->| ->]; reflexivity.
Qed.

(** X12 at the content ["Hello"], merged with [{text: " world"}], with a
    record without text, and with [{text: [1, null, "a"]}]. *)
Lemma merge_appends_witness :
  merge (fun n => NilZero.string_of_int (Z.to_int n)) "Hello"
        (JObj [("text", JStr " world")]) = Ret "Hello world" /\
  merge (fun n => NilZero.string_of_int (Z.to_int n)) "Hello"
        (JObj [("align", JStr "left")]) = Ret "Helloundefined" /\
  merge (fun n => NilZero.string_of_int (Z.to_int n)) "Hello"
        (JObj [("text", JArr [JNum 1; JNull; JStr "a"])]) = Ret "Hello1,,a".
Proof.
  split; [|split].
  - apply (proj1 (proj2 (merge_appends
             (fun n => NilZero.string_of_int (Z.to_int n)) "Hello"
             (JObj [("text", JStr " world")]))) " world" eq_refl).
  - apply (proj1 (proj2 (proj2 (merge_appends
             (fun n => NilZero.string_of_int (Z.to_int n)) "Hello"
             (JObj [("align", JStr "left")])))) eq_refl).
  - apply (proj1 (merge_appends
             (fun n => NilZero.string_of_int (Z.to_int n)) "Hello"
             (JObj [("text", JArr [JNum 1; JNull; JStr "a"])]))
           (JArr [JNum 1; JNull; JStr "a"]) "1,,a" eq_refl eq_refl).
Defined.

(* ================================================================= *)
(** ** Beyond the claims: what is logged *)

(** X13: reading the current alignment logs the warning, once, exactly
    when the stored alignment is not in the allowed set and the configured
    default is present and not in the allowed set either; it logs nothing
    otherwise.  The settings menu reads it once per entry, and so logs
    four times as much. *)
Theorem warning_logged_iff
        (this : t) (avail : list string) (d stored : JsVal) (c : Console) :
  availableAlignTypes this = Ret avail ->
  get_prop (_config this) "defaultAlignType" = Ret d ->
  get_prop (_data this) "align" = Ret stored ->
  exists cur w entries,
    currentAlignType this c = (Ret cur, c ++ w) /\
    renderSettings this c = (Ret entries, c ++ w ++ w ++ w ++ w) /\
    (w = [InvalidDefaultAlignType] \/ w = []) /\
    (w = [InvalidDefaultAlignType] <->
     ~ member_of stored avail /\ truthy d = true /\ ~ member_of d avail).
Proof.
  intros Ha Hd Hs.
  assert (Hcur : exists cur w,
             (forall c0, currentAlignType this c0 = (Ret cur, c0 ++ w)) /\
             (w = [InvalidDefaultAlignType] \/ w = []) /\
             (w = [InvalidDefaultAlignType] <->
              ~ member_of stored avail /\ truthy d = true /\ ~ member_of d avail)).
  { destruct (member_of_dec stored avail) as [[s [-> Hin]]|Hout].
    - exists s, []. split; [|split; [auto|]].
      + intros c0. rewrite (currentAlignType_run this avail (JStr s) c0 Ha Hs).
        rewrite (find_string_member avail s Hin), app_nil_r. reflexivity.
      + split; [discriminate|]. intros [Hn _]. exfalso. apply Hn. exists s; auto.
    - assert (Hnm : ~ member_of stored avail).
      { intros [s [Hv Hin]]. apply (Hout s Hv Hin). }
      destruct (truthy d) eqn:Ht.
      + destruct (member_of_dec d avail) as [[s [-> Hin]]|Hdout].
        * exists s, []. split; [|split; [auto|]].
          -- intros c0.
             rewrite (currentAlignType_run this avail stored c0 Ha Hs).
             rewrite (find_string_absent avail stored Hout).
             rewrite (userDefault_run this avail (JStr s) c0 Ha Hd), Ht.
             rewrite (find_string_member avail s Hin), app_nil_r. reflexivity.
          -- split; [discriminate|]. intros [_ [_ Hn]]. exfalso. apply Hn.
             exists s; auto.
        * exists DEFAULT_ALIGN_TYPE, [InvalidDefaultAlignType].
          split; [|split; [auto|]].
          -- intros c0.
             rewrite (currentAlignType_run this avail stored c0 Ha Hs).
             rewrite (find_string_absent avail stored Hout).
             rewrite (userDefault_run this avail d c0 Ha Hd), Ht.
             rewrite (find_string_absent avail d Hdout). reflexivity.
          -- split; [intros _|reflexivity]. split; [assumption|].
             split; [reflexivity|].
             intros [s [Hv Hin]]. apply (Hdout s Hv Hin).
      + exists DEFAULT_ALIGN_TYPE, []. split; [|split; [auto|]].
        * intros c0.
          rewrite (currentAlignType_run this avail stored c0 Ha Hs).
          rewrite (find_string_absent avail stored Hout).
          rewrite (userDefault_absent this d c0 Hd Ht), app_nil_r. reflexivity.
        * split; [discriminate|]. intros [_ [Hn _]]. discriminate. }
  destruct Hcur as [cur [w [Hrun [Hw Hiff]]]].
  exists cur, w. eexists.
  split; [apply Hrun|]. split; [|split; assumption].
  rewrite (renderSettings_run this cur w Hrun c).
  repeat rewrite <- app_assoc. reflexivity.
Qed.

(** X13 at [{alignTypes: ["right", "justify"], defaultAlignType:
    "center"}] and the stored alignment ["left"]. *)
Lemma warning_logged_iff_witness :
  exists cur w entries,
    currentAlignType
      (mk cfg_right_justify_center (JObj [("align", JStr "left")])) []
      = (Ret cur, [] ++ w) /\
    renderSettings
      (mk cfg_right_justify_center (JObj [("align", JStr "left")])) []
      = (Ret entries, [] ++ w ++ w ++ w ++ w) /\
    (w = [InvalidDefaultAlignType] \/ w = []) /\
    (w = [InvalidDefaultAlignType] <->
     ~ member_of (JStr "left") ["right"; "justify"] /\
     truthy (JStr "center") = true /\
     ~ member_of (JStr "center") ["right"; "justify"]).
Proof.
  apply (warning_logged_iff
           (mk cfg_right_justify_center (JObj [("align", JStr "left")]))
           ["right"; "justify"] (JStr "center") (JStr "left") []);
    reflexivity.
Defined.
